(** * The JSHint command-line driver (src/cli/cli.js)

    A shallow embedding of the CLI orchestration code: the comment
    stripper, the configuration loader, the upward file search, the
    ignore-pattern test, the recursive file collector, the per-file
    [lint] step and [run].

    Strings are [string]; JavaScript's [null]/[undefined] arguments are
    an [option] or an explicit constructor.  What the module obtains from
    its collaborators (the file system through shelljs, [minimatch], the
    [RegExp] constructor, [JSON.parse], the JSHINT engine, the process
    environment) is a field of the record [Env]: every theorem holds for
    all of them.  Exceptions and [process.exit] are the constructors of
    [outcome]; functions whose recursion follows the file system take a
    fuel argument and answer [OutOfFuel] when it is used up. *)

From Stdlib Require Import String Ascii List ZArith Lia Bool Arith.
From stdpp Require Import base option list strings gmap.

Local Open Scope string_scope.
Local Open Scope list_scope.
Local Set Warnings "-register-all".

(** ** Outcomes of a call *)

Inductive exn : Type :=
| SyntaxError (what : string)   (* JSON.parse or the RegExp constructor *)
| ReadError (file : string)     (* raised by shjs.cat *)
| TypeError (what : string).

Inductive outcome (A : Type) : Type :=
| Ret (a : A)
| Throw (e : exn)
| Exit (code : Z)               (* process.exit(code) *)
| OutOfFuel.

Arguments Ret {A} a.
Arguments Throw {A} e.
Arguments Exit {A} code.
Arguments OutOfFuel {A}.

Definition obind {A B} (m : outcome A) (k : A -> outcome B) : outcome B :=
  match m with
  | Ret a => k a
  | Throw e => Throw e
  | Exit c => Exit c
  | OutOfFuel => OutOfFuel
  end.

Declare Scope outcome_scope.
Delimit Scope outcome_scope with outcome.
Notation "'do' x <- m ; k" := (obind m (fun x => k))
  (at level 10, x name, m at level 100, k at level 200) : outcome_scope.
Local Open Scope outcome_scope.

(** ** String helpers *)

Module Str.

Definition slash : ascii := "/"%char.

Definition is_empty (s : string) : bool :=
  match s with EmptyString => true | _ => false end.

(** [s.charAt(0) === c] *)
Definition starts_with_char (c : ascii) (s : string) : bool :=
  match s with
  | String a _ => Ascii.eqb a c
  | EmptyString => false
  end.

(** [s.slice(-1) === c] *)
Fixpoint ends_with_char (c : ascii) (s : string) : bool :=
  match s with
  | EmptyString => false
  | String a EmptyString => Ascii.eqb a c
  | String _ s' => ends_with_char c s'
  end.

(** [s.split(sep)] for a one-character separator. *)
Fixpoint split (sep : ascii) (s : string) : list string :=
  match s with
  | EmptyString => [EmptyString]
  | String a s' =>
      if Ascii.eqb a sep then EmptyString :: split sep s'
      else match split sep s' with
           | h :: t => String a h :: t
           | [] => [String a EmptyString]
           end
  end.

(** [parts.join(sep)] *)
Fixpoint join (sep : string) (parts : list string) : string :=
  match parts with
  | [] => EmptyString
  | [p] => p
  | p :: rest => p +:+ sep +:+ join sep rest
  end.

Fixpoint has_char (c : ascii) (s : string) : bool :=
  match s with
  | EmptyString => false
  | String a s' => Ascii.eqb a c || has_char c s'
  end.

(** [needle] occurs in [s] at position 0. *)
Fixpoint is_prefix (needle s : string) : bool :=
  match needle, s with
  | EmptyString, _ => true
  | String a n', String b s' => Ascii.eqb a b && is_prefix n' s'
  | String _ _, EmptyString => false
  end.

Fixpoint is_substring (needle s : string) : bool :=
  is_prefix needle s ||
  match s with
  | EmptyString => false
  | String _ s' => is_substring needle s'
  end.

(** [s.slice(1)] *)
Definition tail (s : string) : string :=
  match s with
  | EmptyString => EmptyString
  | String _ s' => s'
  end.

(** Writes a text with double quotes from one spelt with single
    quotes: every ['] becomes the character 34. *)
Fixpoint unquote (s : string) : string :=
  match s with
  | EmptyString => EmptyString
  | String a s' =>
      String (if Ascii.eqb a "'" then "034"%char else a) (unquote s')
  end.

End Str.

(** ** Node's POSIX [path] module

    [path.normalize], [path.join] and [path.resolve] as Node implements
    them for POSIX paths: split on the separator, drop empty parts,
    resolve [.] and [..] from the right ([normalizeArray]), join again. *)

Module Path.

Definition nonempty (s : string) : bool := negb (Str.is_empty s).

(** [path.split('/').filter(function (p) { return !!p; })] *)
Definition parts (p : string) : list string :=
  List.filter nonempty (Str.split Str.slash p).

(** The loop of [normalizeArray] runs from the last part to the first,
    carrying the number [up] of [..] still to apply; as a structural
    recursion, the parts after [p] are therefore processed before [p]. *)
Fixpoint normalizeArray_loop (ps : list string) : list string * nat :=
  match ps with
  | [] => ([], 0)
  | p :: later =>
      let '(kept, up) := normalizeArray_loop later in
      if String.eqb p "." then (kept, up)
      else if String.eqb p ".." then (kept, S up)
      else match up with
           | S up' => (kept, up')
           | O => (p :: kept, 0)
           end
  end.

Definition normalizeArray (ps : list string) (allowAboveRoot : bool)
  : list string :=
  let '(kept, up) := normalizeArray_loop ps in
  if allowAboveRoot then repeat ".." up ++ kept else kept.

Definition isAbsolute (p : string) : bool :=
  Str.starts_with_char Str.slash p.

Definition normalize (p : string) : string :=
  let abs := isAbsolute p in
  let trailingSlash := Str.ends_with_char Str.slash p in
  let body := Str.join "/" (normalizeArray (parts p) (negb abs)) in
  let body := if Str.is_empty body && negb abs then "." else body in
  let body := if nonempty body && trailingSlash then body +:+ "/" else body in
  (if abs then "/" else EmptyString) +:+ body.

(** [path.join(p1, ..., pn)]: empty arguments are skipped. *)
Definition join (args : list string) : string :=
  normalize (Str.join "/" (List.filter nonempty args)).

(** The right-to-left loop of [path.resolve]; [args] is given last
    argument first and ends with the working directory. *)
Fixpoint resolve_loop (args : list string) (resolvedPath : string)
  : string * bool :=
  match args with
  | [] => (resolvedPath, false)
  | p :: rest =>
      if Str.is_empty p then resolve_loop rest resolvedPath
      else
        let resolvedPath := p +:+ "/" +:+ resolvedPath in
        if isAbsolute p then (resolvedPath, true)
        else resolve_loop rest resolvedPath
  end.

Definition resolve (cwd : string) (args : list string) : string :=
  let '(resolvedPath, resolvedAbsolute) :=
    resolve_loop (rev args ++ [cwd]) EmptyString in
  let body :=
    Str.join "/" (normalizeArray (parts resolvedPath) (negb resolvedAbsolute)) in
  let r := (if resolvedAbsolute then "/" else EmptyString) +:+ body in
  if Str.is_empty r then "." else r.

End Path.

(** ** JSON values and plain objects

    Numbers are integers; nothing in the module computes with them. *)

Inductive json : Type :=
| JNull
| JBool (b : bool)
| JNum (n : Z)
| JStr (s : string)
| JArr (items : list json)
| JObj (props : list (string * json)).

(** The own properties of an object, in insertion order. *)
Abbreviation obj := (list (string * json)).

Module Js.

(** JavaScript truthiness of a value. *)
Definition truthy (v : json) : bool :=
  match v with
  | JNull => false
  | JBool b => b
  | JNum n => negb (Z.eqb n 0)
  | JStr s => negb (Str.is_empty s)
  | JArr _ | JObj _ => true
  end.

(** [o[k]]; [None] is [undefined]. *)
Fixpoint get (k : string) (o : obj) : option json :=
  match o with
  | [] => None
  | (k', v) :: rest => if String.eqb k' k then Some v else get k rest
  end.

(** [delete o[k]] *)
Definition delete (k : string) (o : obj) : obj :=
  List.filter (fun kv => negb (String.eqb (fst kv) k)) o.

(** [o[k] = v]: an existing property keeps its place, a new one is
    added last. *)
Fixpoint set (k : string) (v : json) (o : obj) : obj :=
  match o with
  | [] => [(k, v)]
  | (k', v') :: rest =>
      if String.eqb k' k then (k', v) :: rest else (k', v') :: set k v rest
  end.

(** [JSON.parse(JSON.stringify(v))] on a JSON value: a structural copy
    that shares nothing with [v]. *)
Fixpoint clone (v : json) : json :=
  match v with
  | JArr items => JArr (List.map clone items)
  | JObj props => JObj (List.map (fun kv => (fst kv, clone (snd kv))) props)
  | JNull => JNull
  | JBool b => JBool b
  | JNum n => JNum n
  | JStr s => JStr s
  end.

Definition clone_obj (o : obj) : obj :=
  List.map (fun kv => (fst kv, clone (snd kv))) o.

End Js.

(** ** The environment of the module *)

Record mm_options : Type := { nocase : bool }.

(** What one call [JSHINT(source, options, globals)] leaves behind: its
    return value, [JSHINT.errors] (possibly with [null] entries),
    [JSHINT.data()] and the options object it was handed, which the
    engine is free to rewrite. *)
Record engine_result : Type := {
  passed : bool;
  errors : list json;
  lintdata : option obj;
  config_after : obj
}.

(** What one call [shjs.cat(p)] can do.  [lint] is written for a call
    that raises when the file cannot be read; shelljs, unless it is
    configured to be fatal, reports an error of its own (a file
    that is not there) by returning [null], and ends the process on an
    error it did not foresee.  The callers below are embedded for all
    four. *)
Inductive reading : Type :=
| CatText (text : string)       (* the text of the file is returned *)
| CatNull                       (* [null] is returned *)
| CatThrows                     (* the call raises *)
| CatExits (code : Z).          (* the call ends the process *)

Record Env : Type := {
  cwd : string;                                  (* process.cwd() *)
  HOME : string;                                 (* process.env.HOME; empty when
                                                    unset: path.join skips it *)
  exists_ : string -> bool;                      (* shjs.test("-e", p) *)
  isdir : string -> bool;                        (* shjs.test("-d", p) *)
  ls : string -> list string;                    (* shjs.ls(p) *)
  cat : string -> reading;                       (* shjs.cat(p) *)
  minimatch : string -> string -> mm_options -> bool;
  RegExp : string -> option (string -> bool);    (* None: SyntaxError;
                                                    Some m: s.match(re) !== null is [m s] *)
  JSON_parse : string -> option json;            (* None: SyntaxError *)
  JSHINT : string -> obj -> option json -> engine_result
}.

(** ** removeComments *)

(** The argument of [removeComments] as a caller can pass it. *)
Inductive strarg : Type :=
| Undefined
| Null
| StrVal (s : string).

Module Comments.

(** The text after the first [*/] of [s], if there is one: what
    [(?:(?!\*\/)[\s\S])*\*\/] consumes. *)
Fixpoint after_close (s : string) : option string :=
  match s with
  | EmptyString => None
  | String _ s' =>
      if Str.is_prefix "*/" s then Some (Str.tail s') else after_close s'
  end.

(** [s.replace(/\/\*(?:(?!\*\/)[\s\S])*\*\//g, empty)]: at an opening
    [/*] that has a closing [*/] after it, the text up to and with the
    first such [*/] is dropped and the scan goes on behind it;
    otherwise the character is kept.  Every step consumes a character,
    [String.length s] is enough fuel. *)
Fixpoint strip_block (fuel : nat) (s : string) : string :=
  match fuel with
  | O => s
  | S n =>
      match s with
      | EmptyString => EmptyString
      | String a s' =>
          if Str.is_prefix "/*" s then
            match after_close (Str.tail s') with
            | Some rest => strip_block n rest
            | None => String a (strip_block n s')
            end
          else String a (strip_block n s')
      end
  end.

Definition line_break (a : ascii) : bool :=
  Ascii.eqb a "010" || Ascii.eqb a "013".

(** What [[^\n\r]*] leaves: the text from the first line break on. *)
Fixpoint to_eol (s : string) : string :=
  match s with
  | EmptyString => EmptyString
  | String a s' => if line_break a then s else to_eol s'
  end.

(** [s.replace(/\/\/[^\n\r]*/g, empty)] *)
Fixpoint strip_line (fuel : nat) (s : string) : string :=
  match fuel with
  | O => s
  | S n =>
      match s with
      | EmptyString => EmptyString
      | String a s' =>
          if Str.is_prefix "//" s then strip_line n (to_eol (Str.tail s'))
          else String a (strip_line n s')
      end
  end.

End Comments.

Definition removeComments (str : strarg) : string :=
  let str := match str with StrVal s => s | Undefined | Null => EmptyString end in
  let str := Comments.strip_block (String.length str) str in
  let str := Comments.strip_line (String.length str) str in
  str.

(** ** loadConfig *)

(** The expression [shjs.cat(p)] where nothing catches what it raises. *)
Definition shjs_cat (env : Env) (p : string) : outcome strarg :=
  match cat env p with
  | CatText text => Ret (StrVal text)
  | CatNull => Ret Null
  | CatThrows => Throw (ReadError p)
  | CatExits code => Exit code
  end.

Definition loadConfig (env : Env) (fp : option string) : outcome json :=
  match fp with
  | Some fp =>
      if negb (Str.is_empty fp) && exists_ env fp then
        do text <- shjs_cat env fp;
        match JSON_parse env (removeComments text) with
        | Some v => Ret v
        | None => Throw (SyntaxError "JSON.parse")
        end
      else Ret (JObj [])
  | None => Ret (JObj [])
  end.

(** ** findFile and findConfig *)

(** [dir || process.cwd()]: the directory the search starts in. *)
Definition start_dir (env : Env) (dir : option string) : string :=
  match dir with
  | Some d => if Str.is_empty d then cwd env else d
  | None => cwd env
  end.

Fixpoint findFile (fuel : nat) (env : Env) (name : string) (dir : option string)
  : outcome (option string) :=
  match fuel with
  | O => OutOfFuel
  | S n =>
      let dir := start_dir env dir in
      let filename := Path.normalize (Path.join [dir; name]) in
      let parent := Path.resolve (cwd env) [dir; "../../"] in
      if exists_ env filename then Ret (Some filename)
      else if String.eqb dir parent then Ret None
      else findFile n env name (Some parent)
  end.

Definition findConfig (fuel : nat) (env : Env) : outcome (option string) :=
  let name := ".jshintrc" in
  do proj <- findFile fuel env name None;
  let home := Path.normalize (Path.join [HOME env; name]) in
  match proj with
  | Some p => Ret (Some p)
  | None => if exists_ env home then Ret (Some home) else Ret None
  end.

(** ** isIgnored *)

(** [ip.match(/^[^\/]*\/?$/)]: no separator, except possibly one at the
    very end. *)
Fixpoint bare_name (ip : string) : bool :=
  match ip with
  | EmptyString => true
  | String a EmptyString => true
  | String a rest => negb (Ascii.eqb a Str.slash) && bare_name rest
  end.

(** The callback of [patterns.some]; it answers [true] or [undefined]. *)
Definition ignore_test (env : Env) (fp ip : string) : outcome bool :=
  if minimatch env fp ip {| nocase := true |} then Ret true
  else if String.eqb (Path.resolve (cwd env) [fp]) ip then Ret true
  else if isdir env fp && bare_name ip then
    match RegExp env ("^" +:+ ip +:+ ".*") with
    | None => Throw (SyntaxError "RegExp")
    | Some re => Ret (re fp)
    end
  else Ret false.

(** [Array.prototype.some] *)
Fixpoint some {A} (f : A -> outcome bool) (l : list A) : outcome bool :=
  match l with
  | [] => Ret false
  | x :: rest => do b <- f x; if b then Ret true else some f rest
  end.

Definition isIgnored (env : Env) (fp : string) (patterns : list string)
  : outcome bool :=
  some (ignore_test env fp) patterns.

(** ** collect *)

(** [files] is the array the callers share; [visited] records, in order,
    every path [collect] was entered with. *)
Record walk : Type := { files : list string; visited : list string }.

(** [Array.prototype.forEach] over a state. *)
Fixpoint forEach {A S} (f : S -> A -> outcome S) (l : list A) (s : S)
  : outcome S :=
  match l with
  | [] => Ret s
  | x :: rest => do s' <- f s x; forEach f rest s'
  end.

Fixpoint collect (fuel : nat) (env : Env) (fp : string) (w : walk)
    (ignores : option (list string)) (ext : string -> bool) : outcome walk :=
  match fuel with
  | O => OutOfFuel
  | S n =>
      let w := {| files := files w; visited := visited w ++ [fp] |} in
      do ignored <- match ignores with
                    | Some patterns => isIgnored env fp patterns
                    | None => Ret false
                    end;
      if ignored then Ret w
      else if isdir env fp then
        forEach (fun w item => collect n env (Path.join [fp; item]) w ignores ext)
                (ls env fp) w
      else if ext fp then
        Ret {| files := files w ++ [fp]; visited := visited w |}
      else Ret w
  end.

(** ** The mutable world of [lint] and [run]

    Configuration objects live in a heap and are passed by reference, so
    that a [delete] on one reference is seen through every alias of it.
    The log keeps what leaves the module: messages of [cli.error], calls
    of the engine and calls of a reporter. *)

Record finding : Type := { file : string; error : json }.

Inductive event : Type :=
| EvCliError (msg : string)
| EvEngine (source : string) (config : obj) (globals : option json)
| EvReporter (custom : option nat) (results : list finding) (data : list obj).
(* [custom] names the reporter in [opts.reporter]; [None] is the default
   reporter.  A reporter reads the two arrays and returns. *)

Record world : Type := { heap : gmap nat obj; log : list event }.

Definition M (A : Type) : Type := world -> outcome A * world.

Module Mon.

Definition ret {A} (a : A) : M A := fun w => (Ret a, w).

Definition bind {A B} (m : M A) (k : A -> M B) : M B :=
  fun w =>
    match m w with
    | (Ret a, w') => k a w'
    | (Throw e, w') => (Throw e, w')
    | (Exit c, w') => (Exit c, w')
    | (OutOfFuel, w') => (OutOfFuel, w')
    end.

Definition lift {A} (o : outcome A) : M A := fun w => (o, w).

Definition emit (e : event) : M unit :=
  fun w => (Ret tt, {| heap := heap w; log := log w ++ [e] |}).

(** A new object: the reference is one the heap does not hold yet. *)
Definition alloc (o : obj) : M nat :=
  fun w =>
    let l := fresh (dom (heap w)) in
    (Ret l, {| heap := <[l := o]> (heap w); log := log w |}).

Definition read (l : nat) : M obj :=
  fun w =>
    match heap w !! l with
    | Some o => (Ret o, w)
    | None => (Throw (TypeError "dangling reference"), w)
    end.

Definition write (l : nat) (o : obj) : M unit :=
  fun w => (Ret tt, {| heap := <[l := o]> (heap w); log := log w |}).

Fixpoint forEach {A S} (f : S -> A -> M S) (l : list A) (s : S) : M S :=
  match l with
  | [] => ret s
  | x :: rest => bind (f s x) (fun s' => forEach f rest s')
  end.

End Mon.

Notation "'let*' x := m 'in' k" := (Mon.bind m (fun x => k))
  (at level 10, x name, m at level 100, k at level 200).
Notation "'let*' '_' := m 'in' k" := (Mon.bind m (fun _ => k))
  (at level 10, m at level 100, k at level 200).

(** ** lint *)

(** The UTF-8 encoding of U+FEFF. *)
Definition BOM : string :=
  String "239" (String "187" (String "191" EmptyString)).

(** [buffer.replace(/^\uFEFF/, empty)] *)
Definition strip_bom (buffer : string) : string :=
  if Str.is_prefix BOM buffer
  then String.substring 3 (String.length buffer - 3) buffer
  else buffer.

(** One finding for each entry of [JSHINT.errors] that is not [null]. *)
Definition findings_of (f : string) (errs : list json) : list finding :=
  List.map (fun err => {| file := f; error := err |})
           (List.filter Js.truthy errs).

Definition lint (env : Env) (f : string) (results : list finding)
    (config : option nat) (data : list obj) : M (list finding * list obj) :=
  (* config = config || {} *)
  let* config := match config with
            | Some c => Mon.ret c
            | None => Mon.alloc []
            end in
  (* config = JSON.parse(JSON.stringify(config)) *)
  let* original := Mon.read config in
  let* config := Mon.alloc (Js.clone_obj original) in
  (* try { buffer = shjs.cat(file) } catch (err) { ... } *)
  let* buffer := match cat env f with
            | CatText buffer => Mon.ret (StrVal buffer)
            | CatNull => Mon.ret Null
            | CatThrows =>
                let* _ := Mon.emit (EvCliError ("Can't open " +:+ f)) in
                Mon.lift (Exit 1%Z)
            | CatExits code => Mon.lift (Exit code)
            end in
  (* buffer = buffer.replace(/^\uFEFF/, empty), outside the try *)
  let* buffer := match buffer with
            | StrVal buffer => Mon.ret (strip_bom buffer)
            | Null | Undefined => Mon.lift (Throw (TypeError "buffer.replace"))
            end in
  let* options := Mon.read config in
  let* globals := match Js.get "globals" options with
             | Some g =>
                 if Js.truthy g then
                   let* _ := Mon.write config (Js.delete "globals" options) in
                   Mon.ret (Some g)
                 else Mon.ret None
             | None => Mon.ret None
             end in
  let* options := Mon.read config in
  let r := JSHINT env buffer options globals in
  let* _ := Mon.emit (EvEngine buffer options globals) in
  let* _ := Mon.write config (config_after r) in
  let results :=
    if passed r then results else results ++ findings_of f (errors r) in
  let data :=
    match lintdata r with
    | Some lintData => data ++ [Js.set "file" (JStr f) lintData]
    | None => data
    end in
  Mon.ret (results, data).

(** ** run *)

Record options : Type := {
  args : list string;
  config : option nat;
  reporter : option nat;          (* None: the default reporter *)
  ignores : option (list string);
  extensions : string
}.

(** [s.replace(/,/g, "|")] *)
Fixpoint commas_to_bars (s : string) : string :=
  match s with
  | EmptyString => EmptyString
  | String a s' =>
      String (if Ascii.eqb a "," then "|"%char else a) (commas_to_bars s')
  end.

(** [s.replace(/[\. ]/g, empty)]: dots and spaces are dropped. *)
Fixpoint drop_dots_spaces (s : string) : string :=
  match s with
  | EmptyString => EmptyString
  | String a s' =>
      if Ascii.eqb a "." || Ascii.eqb a " " then drop_dots_spaces s'
      else String a (drop_dots_spaces s')
  end.

(** The source of the extension pattern built by [run]. *)
Definition ext_source (extensions : string) : string :=
  "\.(js" +:+
  (if Str.is_empty extensions then EmptyString
   else "|" +:+ drop_dots_spaces (commas_to_bars extensions)) +:+
  ")$".

Definition run (fuel : nat) (env : Env) (opts : options) : M bool :=
  let* reg := match RegExp env (ext_source (extensions opts)) with
         | Some re => Mon.ret re
         | None => Mon.lift (Throw (SyntaxError "RegExp"))
         end in
  let* w := Mon.lift
         (forEach (fun w target => collect fuel env target w (ignores opts) reg)
                  (args opts) {| files := []; visited := [] |}) in
  let* rd := Mon.forEach
          (fun rd f => lint env f (fst rd) (config opts) (snd rd))
          (files w) ([], []) in
  (* (opts.reporter || defReporter)(results, data) *)
  let* _ := Mon.emit (EvReporter (reporter opts) (fst rd) (snd rd)) in
  Mon.ret (Nat.eqb (List.length (fst rd)) 0).

(** ** Reference collaborators

    Executable stand-ins for the collaborators, used to run the code on
    concrete inputs: a file system given by a table, a wildcard matcher
    ([*] and [?], never across a separator), a backtracking matcher for
    the regular expressions built from literals, [.], [*], [|], groups
    and the two anchors, a parser for JSON with integer numbers, and an
    engine that objects to [eval]. *)

Module Ref.

Definition lower (c : ascii) : ascii :=
  let n := nat_of_ascii c in
  if Nat.leb 65 n && Nat.leb n 90 then ascii_of_nat (n + 32) else c.

Fixpoint wild (fold_case : bool) (pat s : string) {struct pat} : bool :=
  match pat with
  | EmptyString => Str.is_empty s
  | String "*" pat' =>
      (fix star (s : string) : bool :=
         wild fold_case pat' s ||
         match s with
         | EmptyString => false
         | String a s' => negb (Ascii.eqb a Str.slash) && star s'
         end) s
  | String "?" pat' =>
      match s with
      | String a s' => negb (Ascii.eqb a Str.slash) && wild fold_case pat' s'
      | EmptyString => false
      end
  | String c pat' =>
      match s with
      | String a s' =>
          (if fold_case then Ascii.eqb (lower a) (lower c) else Ascii.eqb a c)
          && wild fold_case pat' s'
      | EmptyString => false
      end
  end.

Definition glob (p pattern : string) (o : mm_options) : bool :=
  wild (nocase o) pattern p.

(** *** Regular expressions *)

Inductive re : Type :=
| REmpty
| RChar (c : ascii)
| RAny
| RBol
| REol
| RSeq (a b : re)
| RAlt (a b : re)
| RStar (a : re).

(** [bol] tells whether the position is the start of the input; [k] is
    what remains to be matched. *)
Fixpoint rmatch (r : re) (bol : bool) (s : string)
    (k : bool -> string -> bool) {struct r} : bool :=
  match r with
  | REmpty => k bol s
  | RChar c =>
      match s with
      | String a s' => Ascii.eqb a c && k false s'
      | EmptyString => false
      end
  | RAny =>
      match s with
      | String a s' => negb (Comments.line_break a) && k false s'
      | EmptyString => false
      end
  | RBol => bol && k bol s
  | REol => Str.is_empty s && k bol s
  | RSeq a b => rmatch a bol s (fun bol' s' => rmatch b bol' s' k)
  | RAlt a b => rmatch a bol s k || rmatch b bol s k
  | RStar a =>
      (fix star (n : nat) (bol : bool) (s : string) : bool :=
         k bol s ||
         match n with
         | O => false
         | S n' =>
             rmatch a bol s (fun bol' s' =>
               Nat.ltb (String.length s') (String.length s) && star n' bol' s')
         end) (String.length s) bol s
  end.

(** A match starting at some position of [s]. *)
Fixpoint search_from (r : re) (bol : bool) (s : string) : bool :=
  rmatch r bol s (fun _ _ => true) ||
  match s with
  | EmptyString => false
  | String _ s' => search_from r false s'
  end.

Definition alnum (c : ascii) : bool :=
  let n := nat_of_ascii c in
  (Nat.leb 48 n && Nat.leb n 57) || (Nat.leb 65 n && Nat.leb n 90) ||
  (Nat.leb 97 n && Nat.leb n 122).

Definition special (c : ascii) : bool :=
  Str.has_char c "*+?()[]{}|".

Definition parse_atom (parse_alt : string -> option (re * string))
    (s : string) : option (re * string) :=
  match s with
  | EmptyString => None
  | String "(" s' =>
      match parse_alt s' with
      | Some (r, String ")" s'') => Some (r, s'')
      | _ => None
      end
  | String "\" (String d s'') =>
      if alnum d then None else Some (RChar d, s'')
  | String "\" EmptyString => None
  | String "." s' => Some (RAny, s')
  | String "^" s' => Some (RBol, s')
  | String "$" s' => Some (REol, s')
  | String c s' => if special c then None else Some (RChar c, s')
  end.

Definition quantify (a : re) (s : string) : option (re * string) :=
  match s with
  | String "*" s' =>
      match a with
      | RBol | REol => None
      | _ => Some (RStar a, s')
      end
  | _ => Some (a, s)
  end.

Fixpoint parse_seq (parse_alt : string -> option (re * string))
    (fuel : nat) (s : string) : option (re * string) :=
  match fuel with
  | O => None
  | S m =>
      match s with
      | EmptyString | String ")" _ | String "|" _ => Some (REmpty, s)
      | _ =>
          match parse_atom parse_alt s with
          | Some (a, s1) =>
              match quantify a s1 with
              | Some (item, s2) =>
                  match parse_seq parse_alt m s2 with
                  | Some (r, s3) => Some (RSeq item r, s3)
                  | None => None
                  end
              | None => None
              end
          | None => None
          end
      end
  end.

Fixpoint parse_alt (fuel : nat) (s : string) : option (re * string) :=
  match fuel with
  | O => None
  | S n =>
      match parse_seq (parse_alt n) (S (String.length s)) s with
      | Some (r, String "|" s') =>
          match parse_alt n s' with
          | Some (r', s'') => Some (RAlt r r', s'')
          | None => None
          end
      | other => other
      end
  end.

Definition compile (source : string) : option (string -> bool) :=
  match parse_alt (S (String.length source)) source with
  | Some (r, EmptyString) => Some (search_from r true)
  | _ => None
  end.

(** *** JSON *)

Definition blank (c : ascii) : bool :=
  Ascii.eqb c " " || Ascii.eqb c "009" || Ascii.eqb c "010" || Ascii.eqb c "013".

Fixpoint skip_ws (s : string) : string :=
  match s with
  | String a s' => if blank a then skip_ws s' else s
  | EmptyString => s
  end.

Definition digit (c : ascii) : option Z :=
  let n := nat_of_ascii c in
  if Nat.leb 48 n && Nat.leb n 57 then Some (Z.of_nat (n - 48)) else None.

Fixpoint digits (acc : Z) (s : string) : Z * string :=
  match s with
  | String a s' =>
      match digit a with
      | Some d => digits (10 * acc + d) s'
      | None => (acc, s)
      end
  | EmptyString => (acc, s)
  end.

(** An integer literal; a fraction or an exponent is outside the
    fragment. *)
Definition parse_int (s : string) : option (Z * string) :=
  match s with
  | String a s' =>
      match digit a with
      | Some d =>
          let '(n, rest) := if Z.eqb d 0 then (0%Z, s') else digits d s' in
          match rest with
          | String c _ =>
              if Str.has_char c ".eE0123456789" then None else Some (n, rest)
          | EmptyString => Some (n, rest)
          end
      | None => None
      end
  | EmptyString => None
  end.

(** The characters of a string literal after its opening quote. *)
Fixpoint parse_chars (s : string) : option (string * string) :=
  match s with
  | EmptyString => None
  | String "034" rest => Some (EmptyString, rest)
  | String "\" (String e s') =>
      let c := if Ascii.eqb e "n" then Some "010"%char
               else if Ascii.eqb e "r" then Some "013"%char
               else if Ascii.eqb e "t" then Some "009"%char
               else if Str.has_char e "\/" || Ascii.eqb e "034" then Some e
               else None in
      match c, parse_chars s' with
      | Some c, Some (str, rest) => Some (String c str, rest)
      | _, _ => None
      end
  | String a s' =>
      if Nat.ltb (nat_of_ascii a) 32 then None
      else match parse_chars s' with
           | Some (str, rest) => Some (String a str, rest)
           | None => None
           end
  end.

Fixpoint parse_items (value : string -> option (json * string))
    (fuel : nat) (s : string) : option (list json * string) :=
  match fuel with
  | O => None
  | S m =>
      match value s with
      | Some (v, rest) =>
          match skip_ws rest with
          | String "," rest' =>
              match parse_items value m (skip_ws rest') with
              | Some (vs, rest'') => Some (v :: vs, rest'')
              | None => None
              end
          | String "]" rest' => Some ([v], rest')
          | _ => None
          end
      | None => None
      end
  end.

Fixpoint parse_members (value : string -> option (json * string))
    (fuel : nat) (s : string) : option (obj * string) :=
  match fuel with
  | O => None
  | S m =>
      match s with
      | String "034" s1 =>
          match parse_chars s1 with
          | Some (key, s2) =>
              match skip_ws s2 with
              | String ":" s3 =>
                  match value (skip_ws s3) with
                  | Some (v, s4) =>
                      match skip_ws s4 with
                      | String "," s5 =>
                          match parse_members value m (skip_ws s5) with
                          | Some (o, s6) => Some ((key, v) :: o, s6)
                          | None => None
                          end
                      | String "}" s5 => Some ([(key, v)], s5)
                      | _ => None
                      end
                  | None => None
                  end
              | _ => None
              end
          | None => None
          end
      | _ => None
      end
  end.

(** A key written twice keeps its last value. *)
Definition build_object (members : obj) : obj :=
  List.fold_left (fun o kv => Js.set (fst kv) (snd kv) o) members [].

Fixpoint parse_value (fuel : nat) (s : string) : option (json * string) :=
  match fuel with
  | O => None
  | S n =>
      match s with
      | String "034" s' =>
          match parse_chars s' with
          | Some (str, rest) => Some (JStr str, rest)
          | None => None
          end
      | String "[" s' =>
          match skip_ws s' with
          | String "]" rest => Some (JArr [], rest)
          | s'' =>
              match parse_items (parse_value n) (String.length s) s'' with
              | Some (vs, rest) => Some (JArr vs, rest)
              | None => None
              end
          end
      | String "{" s' =>
          match skip_ws s' with
          | String "}" rest => Some (JObj [], rest)
          | s'' =>
              match parse_members (parse_value n) (String.length s) s'' with
              | Some (o, rest) => Some (JObj (build_object o), rest)
              | None => None
              end
          end
      | String "-" s' =>
          match parse_int s' with
          | Some (z, rest) => Some (JNum (- z), rest)
          | None => None
          end
      | _ =>
          if Str.is_prefix "null" s then
            Some (JNull, String.substring 4 (String.length s - 4) s)
          else if Str.is_prefix "true" s then
            Some (JBool true, String.substring 4 (String.length s - 4) s)
          else if Str.is_prefix "false" s then
            Some (JBool false, String.substring 5 (String.length s - 5) s)
          else match parse_int s with
               | Some (z, rest) => Some (JNum z, rest)
               | None => None
               end
      end
  end.

Definition parse (text : string) : option json :=
  match parse_value (S (String.length text)) (skip_ws text) with
  | Some (v, rest) => if Str.is_empty (skip_ws rest) then Some v else None
  | None => None
  end.

(** *** The engine *)

Definition engine (source : string) (opts : obj) (globals : option json)
  : engine_result :=
  let bad := Str.is_substring "eval(" source in
  {| passed := negb bad;
     errors := if bad
               then [JObj [("code", JStr "W061"); ("reason", JStr "eval can be harmful.")];
                     JNull]
               else [];
     lintdata := Some [("functions", JArr [])];
     config_after := Js.set "maxerr" (JNum 50) opts |}.

(** *** A file system given by a table of absolute paths *)

Inductive node : Type :=
| FileNode (content : reading)         (* what [shjs.cat] does on it *)
| DirNode (entries : list string).

Fixpoint lookup (table : list (string * node)) (p : string) : option node :=
  match table with
  | [] => None
  | (q, n) :: rest => if String.eqb q p then Some n else lookup rest p
  end.

Definition env (cwd home : string) (table : list (string * node)) : Env :=
  let at_ p := lookup table (Path.resolve cwd [p]) in
  {| cwd := cwd;
     HOME := home;
     exists_ := fun p => match at_ p with Some _ => true | None => false end;
     isdir := fun p => match at_ p with Some (DirNode _) => true | _ => false end;
     ls := fun p => match at_ p with Some (DirNode es) => es | _ => [] end;
     cat := fun p => match at_ p with
                     | Some (FileNode c) => c
                     | Some (DirNode _) => CatExits 1
                     | None => CatNull
                     end;
     minimatch := glob;
     RegExp := compile;
     JSON_parse := parse;
     JSHINT := engine |}.

End Ref.

(** ** Definitions used to state the properties *)

(** The three ways a pattern makes [isIgnored] answer [true], as the code
    tests them: the directory test is made on [fp] as it was passed and
    through the regular expression [^ip.*]. *)
Definition pattern_hits (env : Env) (fp ip : string) : Prop :=
  minimatch env fp ip {| nocase := true |} = true
  \/ Path.resolve (cwd env) [fp] = ip
  \/ (isdir env fp = true /\ bare_name ip = true /\
      exists re, RegExp env ("^" +:+ ip +:+ ".*") = Some re /\ re fp = true).

(** The ignore test in the words of the specification: a glob match, or
    equality with the absolute form, or a directory whose absolute form
    starts with a separator-free pattern. *)
Definition isIgnored_spec (env : Env) (fp : string) (patterns : list string)
  : bool :=
  List.existsb
    (fun ip =>
       minimatch env fp ip {| nocase := true |}
       || String.eqb (Path.resolve (cwd env) [fp]) ip
       || (isdir env fp && bare_name ip
           && Str.is_prefix ip (Path.resolve (cwd env) [fp])))
    patterns.

(** [a] is [b] with some characters left out, the others in their order. *)
Inductive subseq : string -> string -> Prop :=
| subseq_nil : subseq EmptyString EmptyString
| subseq_skip a s t : subseq s t -> subseq s (String a t)
| subseq_keep a s t : subseq s t -> subseq (String a s) (String a t).

(** [s] without its blanks. *)
Fixpoint squeeze (s : string) : string :=
  match s with
  | EmptyString => EmptyString
  | String a s' => if Ref.blank a then squeeze s' else String a (squeeze s')
  end.

(** [s] holds no line break. *)
Definition one_line (s : string) : Prop :=
  Str.has_char "010" s = false /\ Str.has_char "013" s = false.

(** The two replacements of [removeComments], each on its own. *)
Definition without_blocks (s : string) : string :=
  Comments.strip_block (String.length s) s.

Definition without_lines (s : string) : string :=
  Comments.strip_line (String.length s) s.

(** [f] strips block comments, in the words of the specification: a
    text without [/*] is kept as it is; so is a text in which no [*/]
    stands behind the first [/*]; otherwise the comment runs from the
    first [/*] to the first [*/] behind it, it is dropped, the text
    before it is kept and the text behind it is treated likewise. *)
Definition strips_blocks (f : string -> string) : Prop :=
  (forall s, Str.is_substring "/*" s = false -> f s = s)
  /\ (forall a t,
        Str.is_substring "/*" a = false -> Str.is_substring "*/" t = false ->
        f (a +:+ "/*" +:+ t) = a +:+ "/*" +:+ t)
  /\ (forall a b c,
        Str.is_substring "/*" a = false -> Str.is_substring "*/" b = false ->
        f (a +:+ "/*" +:+ b +:+ "*/" +:+ c) = a +:+ f c).

(** [g] strips line comments, in the words of the specification: a text
    without [//] is kept as it is; otherwise the comment runs from the
    first [//] to the end of its line, it is dropped, the text before
    it is kept, and so is the line break, behind which the text is
    treated likewise. *)
Definition strips_lines (g : string -> string) : Prop :=
  (forall s, Str.is_substring "//" s = false -> g s = s)
  /\ (forall a b,
        Str.is_substring "//" a = false -> Str.ends_with_char "/" a = false ->
        one_line b ->
        g (a +:+ "//" +:+ b) = a)
  /\ (forall a b nl c,
        Str.is_substring "//" a = false -> Str.ends_with_char "/" a = false ->
        one_line b -> Comments.line_break nl = true ->
        g (a +:+ "//" +:+ b +:+ String nl c) = a +:+ String nl (g c)).

(** The object a configuration reference stands for in [lint]: a missing
    configuration is the empty object. *)
Definition config_obj (w : world) (config : option nat) : option obj :=
  match config with
  | Some c => heap w !! c
  | None => Some []
  end.

(** What the engine is handed for a configuration with contents [o]: the
    options and the separate globals argument. *)
Definition engine_view (o : obj) : obj * option json :=
  match Js.get "globals" o with
  | Some g => if Js.truthy g then (Js.delete "globals" o, Some g) else (o, None)
  | None => (o, None)
  end.

Definition analyse (env : Env) (o : obj) (buffer : string) : engine_result :=
  JSHINT env (strip_bom buffer) (fst (engine_view o)) (snd (engine_view o)).

(** The findings and the auxiliary data one readable file adds. *)
Definition file_findings (env : Env) (o : obj) (f buffer : string)
  : list finding :=
  let r := analyse env o buffer in
  if passed r then [] else findings_of f (errors r).

Definition file_data (env : Env) (o : obj) (f buffer : string) : list obj :=
  match lintdata (analyse env o buffer) with
  | Some d => [Js.set "file" (JStr f) d]
  | None => []
  end.

Definition content (env : Env) (f : string) : string :=
  match cat env f with CatText b => b | _ => EmptyString end.

Definition all_findings (env : Env) (o : obj) (fs : list string) : list finding :=
  List.concat (List.map (fun f => file_findings env o f (content env f)) fs).

Definition all_data (env : Env) (o : obj) (fs : list string) : list obj :=
  List.concat (List.map (fun f => file_data env o f (content env f)) fs).

Definition engine_events (env : Env) (o : obj) (fs : list string) : list event :=
  List.map (fun f => EvEngine (strip_bom (content env f))
                              (fst (engine_view o)) (snd (engine_view o))) fs.

(** [shjs.cat] returns the text of [f]. *)
Definition readable (env : Env) (f : string) : Prop :=
  exists buffer, cat env f = CatText buffer.

(** How [lint] ends on a file for which [shjs.cat] gives no text, and
    what it writes before: the message and status 1 in the [catch]
    block when the call raises; nothing and the exception of
    [buffer.replace] when [null] comes back. *)
Definition read_failure {A} (f : string) (r : reading)
  : option (outcome A * list event) :=
  match r with
  | CatText _ => None
  | CatNull => Some (Throw (TypeError "buffer.replace"), [])
  | CatThrows => Some (Exit 1%Z, [EvCliError ("Can't open " +:+ f)])
  | CatExits code => Some (Exit code, [])
  end.

(** The callback of [files.forEach] in [run]. *)
Abbreviation lint_each env cfg :=
  (fun (rd : list finding * list obj) (f : string) =>
     lint env f (fst rd) cfg (snd rd)).

Definition is_reporter_call (e : event) : bool :=
  match e with EvReporter _ _ _ => true | _ => false end.

(** Fuel that lets the upward search from [dir] reach the root: one
    step per segment of the first computed parent, and two more. *)
Definition search_depth (env : Env) (dir : option string) : nat :=
  2 + List.length
        (Path.parts (Path.resolve (cwd env) [start_dir env dir; "../../"])).

(** A path segment: not empty and without a separator. *)
Definition segment (s : string) : Prop :=
  Path.nonempty s = true /\ Str.has_char Str.slash s = false.

(** A segment that is a name, neither [.] nor [..]. *)
Definition plain (s : string) : Prop :=
  segment s /\ String.eqb s "." = false /\ String.eqb s ".." = false.

(** The absolute path with the segments [ks]. *)
Definition render (ks : list string) : string := "/" +:+ Str.join "/" ks.

(** The segments left two levels up. *)
Definition up2 (ks : list string) : list string := firstn (List.length ks - 2) ks.

(** ** Concrete inputs *)

Module Demo.

(** A project in [/a] with its configuration there, the working
    directory one level below. *)
Definition nested : Env :=
  Ref.env "/a/b" "/home/u"
    [("/a", Ref.DirNode ["b"; ".jshintrc"]);
     ("/a/.jshintrc", Ref.FileNode (CatText "{ // empty"));
     ("/a/b", Ref.DirNode [])].

(** A source tree under the working directory, with one file on which
    [shjs.cat] raises. *)
Definition tree : Env :=
  Ref.env "/home/u" "/home/u"
    [("/home/u", Ref.DirNode ["src"]);
     ("/home/u/src", Ref.DirNode ["lib"; "ok.js"; "locked.js"]);
     ("/home/u/src/lib", Ref.DirNode ["a.js"]);
     ("/home/u/src/lib/a.js", Ref.FileNode (CatText "eval(x);"));
     ("/home/u/src/ok.js", Ref.FileNode (CatText "var x = 1;"));
     ("/home/u/src/locked.js", Ref.FileNode CatThrows)].

(** A directory with sources of three kinds. *)
Definition mixed : Env :=
  Ref.env "/w" "/home/u"
    [("/w/d", Ref.DirNode ["a.js"; "b.ts"; "c.txt"]);
     ("/w/d/a.js", Ref.FileNode (CatText "a"));
     ("/w/d/b.ts", Ref.FileNode (CatText "b"));
     ("/w/d/c.txt", Ref.FileNode (CatText "c"))].

(** Nothing exists. *)
Definition bare : Env := Ref.env "/p/q/r/s/t" "/home/u" [].

Definition with_globals : obj :=
  [("globals", JObj [("x", JBool true)]); ("undef", JBool true)].

Definition falsy_globals : obj :=
  [("globals", JBool false); ("undef", JBool true)].

Definition world_of (o : obj) : world :=
  {| heap := {[ 0 := o ]}; log := [] |}.

Definition sample : string := Str.unquote "/* x */ {'a':1} // y".

Definition opts (ign : option (list string)) : options :=
  {| args := ["src"]; config := Some 0; reporter := None;
     ignores := ign; extensions := EmptyString |}.

(** Three files, and the name of a fourth that is not there. *)
Definition flat : Env :=
  Ref.env "/w" "/home/u"
    [("/w/ok.js", Ref.FileNode (CatText "var x = 1;"));
     ("/w/raise.js", Ref.FileNode CatThrows);
     ("/w/exit.js", Ref.FileNode (CatExits 1))].

(** The command line names the files. *)
Definition targets (names : list string) : options :=
  {| args := names; config := Some 0; reporter := None;
     ignores := None; extensions := EmptyString |}.

End Demo.

(** * The rest of the module

    [loadIgnores], [loadReporter] and the part of [interpret] that runs
    before [run] is called.  They need two more things from outside:
    [String.prototype.trim] and [require]. *)

(** The value of [require(fp).reporter]. *)
Inductive reporter_value : Type :=
| RNull
| RUndefined
| RFunction (r : nat).

Record Host : Type := {
  host_env :> Env;
  trim : string -> string;                        (* s.trim() *)
  require : string -> option reporter_value       (* None: require raises *)
}.

(** ** path.dirname

    As Node computes it for POSIX paths: trailing separators are not
    part of the name, the directory ends before the last separator that
    is left, and the first character is never cut. *)

Module Dir.

Fixpoint without_trailing_slashes (s : string) : string :=
  match s with
  | EmptyString => EmptyString
  | String a s' =>
      let t := without_trailing_slashes s' in
      if Ascii.eqb a Str.slash && Str.is_empty t then EmptyString
      else String a t
  end.

(** The text before the last separator of [s]. *)
Fixpoint before_last_slash (s : string) : option string :=
  match s with
  | EmptyString => None
  | String a s' =>
      match before_last_slash s' with
      | Some p => Some (String a p)
      | None => if Ascii.eqb a Str.slash then Some EmptyString else None
      end
  end.

Definition dirname (p : string) : string :=
  match p with
  | EmptyString => "."
  | String c rest =>
      let hasRoot := Ascii.eqb c Str.slash in
      match before_last_slash (without_trailing_slashes rest) with
      | None => if hasRoot then "/" else "."
      | Some dir =>
          if hasRoot && Str.is_empty dir then "//" else String c dir
      end
  end.

End Dir.

(** ** loadIgnores *)

Definition loadIgnores (fuel : nat) (h : Host) : outcome (option (list string)) :=
  do found <- findFile fuel h ".jshintignore" None;
  match found with
  | None => Ret None
  | Some f =>
      if Str.is_empty f then Ret None
      else
        do text <- shjs_cat h f;
        match text with
        | StrVal text =>
            Ret (Some
                   (List.map
                      (fun line => Path.resolve (cwd h) [Dir.dirname f; trim h line])
                      (List.filter
                         (fun line => negb (Str.is_empty (trim h line)))
                         (Str.split "010" text))))
        | Null | Undefined => Throw (TypeError "shjs.cat(file).split")
        end
  end.

(** ** loadReporter *)

Definition loadReporter (h : Host) (fp : string) : reporter_value :=
  match require h fp with
  | Some v => v
  | None => RNull
  end.

(** ** interpret, up to the call of [run] *)

(** What [cli.parse(OPTIONS)] returns: [config] is a string or [false],
    [reporter] a string or [undefined], the three flags are set or not,
    [extra-ext] is a string. *)
Record cli_options : Type := {
  o_config : option string;
  o_reporter : option string;
  o_jslint_reporter : bool;
  o_checkstyle_reporter : bool;
  o_show_non_errors : bool;
  o_extra_ext : string
}.

Definition is_named (name : string) (v : option string) : bool :=
  match v with
  | Some s => String.eqb s name
  | None => false
  end.

(** The [switch (true)] of [interpret]: the value of [options.reporter]
    after it. *)
Definition reporter_option (h : Host) (o : cli_options) : option string :=
  if is_named "jslint" (o_reporter o) || o_jslint_reporter o then
    Some "../reporters/jslint_xml.js"
  else if is_named "checkstyle" (o_reporter o) || o_checkstyle_reporter o then
    Some "../reporters/checkstyle.js"
  else if o_show_non_errors o then
    Some "../reporters/non_error.js"
  else
    match o_reporter o with
    | Some r => Some (Path.resolve (cwd h) [cwd h; r])
    | None => None
    end.

(** The argument [interpret] builds for [run]; the configuration is the
    value [loadConfig] returned. *)
Record run_request : Type := {
  rq_args : list string;
  rq_config : json;
  rq_reporter : option nat;
  rq_ignores : option (list string);
  rq_extensions : string
}.

(** [options.config || findConfig()] *)
Definition config_path (fuel : nat) (h : Host) (o : cli_options)
  : outcome (option string) :=
  match o_config o with
  | Some p => if Str.is_empty p then findConfig fuel h else Ret (Some p)
  | None => findConfig fuel h
  end.

(** The reporter [interpret] passes on: [undefined] stands for the
    default reporter. *)
Definition selected_reporter (h : Host) (o : cli_options) : M (option nat) :=
  match reporter_option h o with
  | Some p =>
      if Str.is_empty p then Mon.ret None
      else
        match loadReporter h p with
        | RNull =>
            let* _ := Mon.emit (EvCliError ("Can't load reporter file: " +:+ p)) in
            Mon.lift (Exit 1%Z)
        | RUndefined => Mon.ret None
        | RFunction r => Mon.ret (Some r)
        end
  | None => Mon.ret None
  end.

Definition interpret_setup (fuel : nat) (h : Host) (cli_args : list string)
    (o : cli_options) : M run_request :=
  let* fp := Mon.lift (config_path fuel h o) in
  let* config := Mon.lift (loadConfig h fp) in
  let* reporter := selected_reporter h o in
  let* ignores := Mon.lift (loadIgnores fuel h) in
  Mon.ret {| rq_args := cli_args;
             rq_config := config;
             rq_reporter := reporter;
             rq_ignores := ignores;
             rq_extensions := o_extra_ext o |}.

(** ** Definitions used to state the further properties *)

(** The directories the upward search examines from [/k1/.../kn], at
    most [n] of them after the first. *)
Fixpoint search_chain (n : nat) (ks : list string) : list string :=
  render ks ::
  match n, ks with
  | S n', _ :: _ => search_chain n' (up2 ks)
  | _, _ => []
  end.

(** The name searched for, in directory [d]. *)
Definition candidate (name d : string) : string :=
  Path.normalize (Path.join [d; name]).

(** The ignore test on patterns for which only the glob and the equality
    matter. *)
Definition glob_or_equal (env : Env) (fp : string) (patterns : list string)
  : bool :=
  List.existsb
    (fun ip =>
       minimatch env fp ip {| nocase := true |}
       || String.eqb (Path.resolve (cwd env) [fp]) ip)
    patterns.

(** An absolute, normalized path other than the root. *)
Definition below_root (p : string) : Prop :=
  exists ks, Forall plain ks /\ ks <> [] /\ p = render ks.

(** An absolute, normalized path. *)
Definition resolved (p : string) : Prop :=
  exists ks, Forall plain ks /\ p = render ks.

(** [l1] is the beginning of [l2]. *)
Definition extends {A} (l1 l2 : list A) : Prop := exists more, l2 = l1 ++ more.

(** The ignore test answers [false] for [p], or there is no list. *)
Definition not_ignored (env : Env) (ignores : option (list string)) (p : string)
  : Prop :=
  match ignores with
  | Some patterns => isIgnored env p patterns = Ret false
  | None => True
  end.

(** What [collect] may add to the list: a path that matches the
    extension pattern, is not a directory and is not ignored. *)
Definition collectable (env : Env) (ignores : option (list string))
    (ext : string -> bool) (p : string) : Prop :=
  ext p = true /\ isdir env p = false /\ not_ignored env ignores p.

(** The entry [item] of the directory [fp], as [collect] names it. *)
Definition child (fp item : string) : string := Path.join [fp; item].

(** The files and the visits of [w'] are those of [w] and more, and the
    files added are collectable. *)
Definition grows (env : Env) (ignores : option (list string))
    (ext : string -> bool) (w w' : walk) : Prop :=
  (exists added, files w' = files w ++ added
                 /\ Forall (collectable env ignores ext) added)
  /\ extends (visited w) (visited w').

(** A computation that leaves every object the heap already holds as it
    is, whatever its outcome. *)
Definition preserves {A} (m : M A) : Prop :=
  forall w l, is_Some (heap w !! l) -> heap (snd (m w)) !! l = heap w !! l.

(** The command line asks for the JSLint reporter, by name or by the
    deprecated flag; likewise for CheckStyle. *)
Definition wants_jslint (o : cli_options) : bool :=
  is_named "jslint" (o_reporter o) || o_jslint_reporter o.

Definition wants_checkstyle (o : cli_options) : bool :=
  is_named "checkstyle" (o_reporter o) || o_checkstyle_reporter o.

Module Ref2.

(** [trim] on the ASCII white space. *)
Definition white (c : ascii) : bool :=
  let n := nat_of_ascii c in
  (Nat.leb 9 n && Nat.leb n 13) || Nat.eqb n 32.

Fixpoint trim_left (s : string) : string :=
  match s with
  | String a s' => if white a then trim_left s' else s
  | EmptyString => EmptyString
  end.

Fixpoint trim_right (s : string) : string :=
  match s with
  | EmptyString => EmptyString
  | String a s' =>
      let t := trim_right s' in
      if white a && Str.is_empty t then EmptyString else String a t
  end.

Definition ascii_trim (s : string) : string := trim_right (trim_left s).

Definition host (env : Env) (modules : list (string * reporter_value)) : Host :=
  {| host_env := env;
     trim := ascii_trim;
     require := fun fp =>
       (fix find (l : list (string * reporter_value)) :=
          match l with
          | [] => None
          | (q, v) :: rest => if String.eqb q fp then Some v else find rest
          end) modules |}.

End Ref2.

Module Demo2.

(** A project with an ignore file at its top. *)
Definition project : Env :=
  Ref.env "/w" "/home/u"
    [("/w", Ref.DirNode [".jshintignore"; ".jshintrc"; "src"; "vendor"]);
     ("/w/.jshintignore",
      Ref.FileNode (CatText (String.concat (String "010" EmptyString)
                            ["vendor"; "  "; " src/gen.js "; "/opt/x"; ""])));
     ("/w/.jshintrc",
    Ref.FileNode (CatText (Str.unquote "{ /* strict */ 'undef': true }")));
     ("/w/src", Ref.DirNode ["a.js"; "gen.js"; "notes.txt"]);
     ("/w/src/a.js", Ref.FileNode (CatText "var a;"));
     ("/w/src/gen.js", Ref.FileNode (CatText "eval(1)"));
     ("/w/src/notes.txt", Ref.FileNode (CatText "n"));
     ("/w/vendor", Ref.DirNode ["v.js"]);
     ("/w/vendor/v.js", Ref.FileNode (CatText "eval(2)"))].

Definition host : Host :=
  Ref2.host project
    [("/w/rep.js", RFunction 7); ("/w/empty.js", RUndefined)].

Definition plain_options : cli_options :=
  {| o_config := None; o_reporter := None; o_jslint_reporter := false;
     o_checkstyle_reporter := false; o_show_non_errors := false;
     o_extra_ext := EmptyString |}.

Definition with_reporter (r : string) (non_errors : bool) : cli_options :=
  {| o_config := None; o_reporter := Some r; o_jslint_reporter := false;
     o_checkstyle_reporter := false; o_show_non_errors := non_errors;
     o_extra_ext := EmptyString |}.

Definition with_config (p : string) : cli_options :=
  {| o_config := Some p; o_reporter := None; o_jslint_reporter := false;
     o_checkstyle_reporter := false; o_show_non_errors := false;
     o_extra_ext := EmptyString |}.

(** Two file systems that differ in a comment of one file. *)
Definition commented : Env :=
  Ref.env "/w" "/home/u"
    [("/w/c.json", Ref.FileNode (CatText (Str.unquote "/* all */{'undef': true}")))].

Definition uncommented : Env :=
  Ref.env "/w" "/home/u"
    [("/w/c.json", Ref.FileNode (CatText (Str.unquote "{'undef': true}")))].

(** The same configuration with a line comment in it, and without. *)
Definition line_commented : Env :=
  Ref.env "/w" "/home/u"
    [("/w/c.json",
      Ref.FileNode (CatText (Str.unquote "{'undef': true " +:+ "//" +:+ " strict"
                             +:+ String "010" "}")))].

Definition line_uncommented : Env :=
  Ref.env "/w" "/home/u"
    [("/w/c.json",
      Ref.FileNode (CatText (Str.unquote "{'undef': true " +:+ String "010" "}")))].

(** Sources that start with one byte order mark, and with two. *)
Definition marked : Env :=
  Ref.env "/w" "/home/u"
    [("/w/m.js", Ref.FileNode (CatText (BOM +:+ "var m;")));
     ("/w/mm.js", Ref.FileNode (CatText (BOM +:+ BOM +:+ "var m;")))].

End Demo2.

(** * Properties *)

Example path_resolve_up2 : Path.resolve "/x" ["/a/b/c"; "../../"] = "/a".
Proof. reflexivity. Qed.
Example path_resolve_root : Path.resolve "/x" ["/"; "../../"] = "/".
Proof. reflexivity. Qed.
Example path_resolve_rel : Path.resolve "/home/u" ["src/lib"] = "/home/u/src/lib".
Proof. reflexivity. Qed.
Example path_join_ex : Path.join ["/a/b"; ".jshintrc"] = "/a/b/.jshintrc".
Proof. reflexivity. Qed.
Example path_normalize_ex : Path.normalize "a//b/../c/" = "a/c/".
Proof. reflexivity. Qed.

Example ref_glob1 : Ref.glob "src/lib" "src" {| nocase := true |} = false.
Proof. reflexivity. Qed.
Example ref_glob2 : Ref.glob "Lib/Foo.JS" "lib/*.js" {| nocase := true |} = true.
Proof. reflexivity. Qed.
Example ref_re1 : option_map (fun m => (m "a.js", m "a.jsx", m "b.ts", m "js"))
                    (Ref.compile "\.(js|ts)$") = Some (true, false, true, false).
Proof. vm_compute. reflexivity. Qed.
Example ref_re2 : option_map (fun m => (m "src/lib", m "lib/src"))
                    (Ref.compile "^src.*") = Some (true, false).
Proof. vm_compute. reflexivity. Qed.
Example ref_re3 : Ref.compile "^*.min.*" = None.
Proof. reflexivity. Qed.

Example ref_json1 :
  Ref.parse (Str.unquote " {'a':1, 'b' : [true, null, 'x'], 'c': {'d': -20}} ")
  = Some (JObj [("a", JNum 1); ("b", JArr [JBool true; JNull; JStr "x"]);
                ("c", JObj [("d", JNum (-20))])]).
Proof. vm_compute. reflexivity. Qed.
Example ref_json2 : Ref.parse (Str.unquote "{'a':1,}") = None.
Proof. vm_compute. reflexivity. Qed.
Example ref_json3 :
  Ref.parse (Str.unquote "{'a':1, 'a':2}") = Some (JObj [("a", JNum 2)]).
Proof. vm_compute. reflexivity. Qed.

Example ext_source_default : ext_source EmptyString = "\.(js)$".
Proof. reflexivity. Qed.
Example ext_source_extra : ext_source ".ts, jsx" = "\.(js|ts|jsx)$".
Proof. reflexivity. Qed.

Example isIgnored_empty : isIgnored Demo.tree "src" [] = Ret false.
Proof. reflexivity. Qed.
Example isIgnored_glob : isIgnored Demo.tree "src/OK.js" ["src/*.js"] = Ret true.
Proof. vm_compute. reflexivity. Qed.
Example isIgnored_absolute :
  isIgnored Demo.tree "src/ok.js" ["/home/u/src/ok.js"] = Ret true.
Proof. vm_compute. reflexivity. Qed.
Example isIgnored_bad_regexp :
  isIgnored Demo.tree "src/lib" ["*.min"; "src"] = Throw (SyntaxError "RegExp").
Proof. vm_compute. reflexivity. Qed.

Example collect_tree :
  option_map (fun re => collect 3 Demo.tree "src" {| files := []; visited := [] |} None re)
             (RegExp Demo.tree (ext_source EmptyString))
  = Some (Ret {| files := ["src/lib/a.js"; "src/ok.js"; "src/locked.js"];
                 visited := ["src"; "src/lib"; "src/lib/a.js"; "src/ok.js";
                             "src/locked.js"] |}).
Proof. vm_compute. reflexivity. Qed.

Example collect_extra_extension :
  option_map (fun re => obind (collect 2 Demo.mixed "d" {| files := []; visited := [] |}
                                       None re)
                              (fun w => Ret (files w)))
             (RegExp Demo.mixed (ext_source "ts"))
  = Some (Ret ["d/a.js"; "d/b.ts"]).
Proof. vm_compute. reflexivity. Qed.

Example collect_out_of_fuel :
  collect 1 Demo.tree "src" {| files := []; visited := [] |} None (fun _ => true)
  = OutOfFuel.
Proof. reflexivity. Qed.

Example findFile_found :
  findFile 1 Demo.nested ".jshintrc" (Some "/a") = Ret (Some "/a/.jshintrc").
Proof. reflexivity. Qed.

Example run_with_finding :
  fst (run 3 Demo.tree (Demo.opts (Some ["src/locked.js"]))
           (Demo.world_of Demo.with_globals)) = Ret false.
Proof. vm_compute. reflexivity. Qed.

(** ** removeComments on a missing argument *)

(** C10: called with [null] or [undefined] instead of a string,
    [removeComments] returns the empty string. *)
Theorem removeComments_missing_input :
  removeComments Null = EmptyString /\ removeComments Undefined = EmptyString.
Proof. split; reflexivity. Qed.

(** ** loadConfig *)

Lemma loadConfig_cat env fp text :
  Str.is_empty fp = false -> exists_ env fp = true -> cat env fp = CatText text ->
  loadConfig env (Some fp) =
  match JSON_parse env (removeComments (StrVal text)) with
  | Some v => Ret v
  | None => Throw (SyntaxError "JSON.parse")
  end.
Proof.
  intros Hne Hex Hcat. unfold loadConfig, shjs_cat. rewrite Hne, Hex, Hcat.
  reflexivity.
Qed.

Lemma loadConfig_cat_null env fp :
  Str.is_empty fp = false -> exists_ env fp = true -> cat env fp = CatNull ->
  loadConfig env (Some fp) =
  match JSON_parse env EmptyString with
  | Some v => Ret v
  | None => Throw (SyntaxError "JSON.parse")
  end.
Proof.
  intros Hne Hex Hcat. unfold loadConfig, shjs_cat. rewrite Hne, Hex, Hcat.
  reflexivity.
Qed.

(** C4: [loadConfig] returns the empty configuration for a missing path
    and for a path that names no file, and it raises the parse error
    exactly when the file exists and its text, comments stripped, is not
    accepted by [JSON.parse]; where [shjs.cat] returns [null] for the
    file, the text that is parsed is the empty one. *)
Theorem loadConfig_empty_or_parse_error (env : Env) :
  loadConfig env None = Ret (JObj [])
  /\ loadConfig env (Some EmptyString) = Ret (JObj [])
  /\ (forall fp, exists_ env fp = false -> loadConfig env (Some fp) = Ret (JObj []))
  /\ (forall fp,
        loadConfig env (Some fp) = Throw (SyntaxError "JSON.parse") <->
        (fp <> EmptyString /\ exists_ env fp = true /\
         ((exists text, cat env fp = CatText text /\
                        JSON_parse env (removeComments (StrVal text)) = None)
          \/ (cat env fp = CatNull /\ JSON_parse env EmptyString = None)))).
Proof.
  repeat split.
  - intros fp Hex. unfold loadConfig. rewrite Hex, andb_false_r. reflexivity.
  - unfold loadConfig in H. destruct fp; [discriminate | intros ?; discriminate].
  - unfold loadConfig in H.
    destruct (Str.is_empty fp); [discriminate |].
    destruct (exists_ env fp); [reflexivity | discriminate].
  - unfold loadConfig, shjs_cat in H.
    destruct (negb (Str.is_empty fp) && exists_ env fp); [| discriminate].
    destruct (cat env fp) as [text | | | code]; cbn [obind] in H; try discriminate.
    + left. exists text. split; [reflexivity |].
      destruct (JSON_parse env (removeComments (StrVal text)));
        [discriminate | reflexivity].
    + right. split; [reflexivity |].
      change (removeComments Null) with EmptyString in H.
      destruct (JSON_parse env EmptyString); [discriminate | reflexivity].
  - intros (Hne & Hex & [(text & Hcat & Hparse) | (Hcat & Hparse)]).
    + rewrite (loadConfig_cat env fp text);
        [rewrite Hparse; reflexivity | | assumption | assumption].
      destruct fp; [congruence | reflexivity].
    + rewrite (loadConfig_cat_null env fp);
        [rewrite Hparse; reflexivity | | assumption | assumption].
      destruct fp; [congruence | reflexivity].
Qed.

Lemma loadConfig_empty_or_parse_error_witness :
  loadConfig Demo.nested (Some "/a/.jshintrc") = Throw (SyntaxError "JSON.parse")
  /\ loadConfig Demo.nested (Some "/a/.jshintrx") = Ret (JObj []).
Proof.
  destruct (loadConfig_empty_or_parse_error Demo.nested) as (_ & _ & Hmiss & Hparse).
  split.
  - apply Hparse. split; [discriminate |]. split; [reflexivity |].
    left. exists "{ // empty". split; vm_compute; reflexivity.
  - apply Hmiss. reflexivity.
Defined.

(** ** isIgnored *)

Lemma some_true_iff {A} (f : A -> outcome bool) (l : list A) :
  some f l = Ret true <->
  exists before x after,
    l = before ++ x :: after /\ Forall (fun y => f y = Ret false) before /\
    f x = Ret true.
Proof.
  induction l as [| a l IH]; simpl.
  - split; [discriminate |].
    intros (before & x & after & Heq & _). destruct before; discriminate.
  - split.
    + destruct (f a) as [[|] | | |] eqn:Hfa; simpl; try discriminate.
      * intros _. exists [], a, l. repeat split; [constructor | exact Hfa].
      * intros H. apply IH in H as (before & x & after & -> & Hall & Hx).
        exists (a :: before), x, after. repeat split; [constructor |]; assumption.
    + intros (before & x & after & Heq & Hall & Hx).
      destruct before as [| b before]; simpl in Heq; injection Heq as -> ->.
      * rewrite Hx. reflexivity.
      * inversion Hall as [| ? ? Hb Hrest]; subst. rewrite Hb. simpl.
        apply IH. exists before, x, after. repeat split; assumption.
Qed.

Lemma ignore_test_true env fp ip :
  ignore_test env fp ip = Ret true <-> pattern_hits env fp ip.
Proof.
  unfold ignore_test, pattern_hits. split.
  - destruct (minimatch env fp ip _) eqn:Hm; [left; reflexivity |].
    destruct (String.eqb_spec (Path.resolve (cwd env) [fp]) ip) as [-> | Hne];
      [right; left; reflexivity |].
    destruct (isdir env fp) eqn:Hd; simpl; [| discriminate].
    destruct (bare_name ip) eqn:Hb; [| discriminate].
    destruct (RegExp env _) as [re |] eqn:Hre; [| discriminate].
    intros [= Hfp]. right; right. repeat split. exists re. split; [reflexivity | exact Hfp].
  - intros [Hm | [Heq | (Hd & Hb & re & Hre & Hfp)]].
    + rewrite Hm. reflexivity.
    + destruct (minimatch env fp ip _); [reflexivity |].
      rewrite Heq, String.eqb_refl. reflexivity.
    + destruct (minimatch env fp ip _); [reflexivity |].
      destruct (String.eqb _ ip); [reflexivity |].
      rewrite Hd, Hb, Hre. simpl. rewrite Hfp. reflexivity.
Qed.

(** The callback returns or raises; it never ends the process. *)
Lemma ignore_test_outcome env fp ip :
  (exists b, ignore_test env fp ip = Ret b)
  \/ ignore_test env fp ip = Throw (SyntaxError "RegExp").
Proof.
  unfold ignore_test.
  destruct (minimatch env fp ip _); [left; eauto |].
  destruct (String.eqb _ ip); [left; eauto |].
  destruct (isdir env fp && bare_name ip); [| left; eauto].
  destruct (RegExp env _); [left; eauto | right; reflexivity].
Qed.

(** C2, as the code has it: [isIgnored] returns [true] if and only if
    some pattern matches the path as a glob (case-insensitively), or
    equals its absolute form, or the path is a directory, the pattern has
    no separator before its last character and the path as passed matches
    the regular expression [^pattern.*], and no pattern listed before
    that one makes the [RegExp] constructor raise. *)
Theorem isIgnored_true_iff (env : Env) (fp : string) (patterns : list string) :
  isIgnored env fp patterns = Ret true <->
  exists before ip after,
    patterns = before ++ ip :: after
    /\ Forall (fun q => forall e, ignore_test env fp q <> Throw e) before
    /\ pattern_hits env fp ip.
Proof.
  unfold isIgnored. rewrite some_true_iff. split.
  - intros (before & ip & after & -> & Hall & Hip).
    exists before, ip, after. repeat split.
    + eapply Forall_impl; [exact Hall |]. intros q Hq e. simpl in Hq. rewrite Hq. discriminate.
    + apply ignore_test_true. exact Hip.
  - intros (before & ip & after & -> & Hall & Hip).
    apply ignore_test_true in Hip.
    revert after Hall. induction before as [| q before IH]; intros after Hall.
    + exists [], ip, after. repeat split; [constructor | exact Hip].
    + inversion Hall as [| ? ? Hq Hrest]; subst.
      destruct (ignore_test_outcome env fp q) as [[[|] Hb] | Hthrow].
      * exists [], q, (before ++ ip :: after). repeat split; [constructor | exact Hb].
      * destruct (IH after Hrest) as (b' & x & a' & Heq & Hall' & Hx).
        exists (q :: b'), x, a'. simpl. rewrite Heq. repeat split; [constructor |]; assumption.
      * exfalso. exact (Hq _ Hthrow).
Qed.

Lemma isIgnored_true_iff_witness :
  isIgnored Demo.tree "src/lib" ["lib"; "src"] = Ret true.
Proof.
  apply isIgnored_true_iff. exists ["lib"], "src", [].
  split; [reflexivity |]. split.
  - constructor; [| constructor]. intros e H. vm_compute in H. discriminate H.
  - right; right. split; [reflexivity |]. split; [reflexivity |].
    eexists. split; [cbv; reflexivity | vm_compute; reflexivity].
Defined.

(** C2 as worded fails: for the directory [src/lib] and the pattern
    [src] the code answers [true], although [src/lib] does not match the
    glob, its absolute form [/home/u/src/lib] is not the pattern and does
    not start with it. *)
Lemma isIgnored_not_absolute_prefix :
  ~ (isIgnored Demo.tree "src/lib" ["src"] = Ret true <->
     isIgnored_spec Demo.tree "src/lib" ["src"] = true).
Proof.
  intros [Hcode _].
  assert (Hspec : isIgnored_spec Demo.tree "src/lib" ["src"] = false)
    by (vm_compute; reflexivity).
  rewrite Hcode in Hspec; [discriminate | vm_compute; reflexivity].
Qed.

(** ** collect *)

(** C5: when the path is ignored, [collect] returns at once: the file
    list is as it was and the only path entered is the path itself, so
    nothing below an ignored directory is visited or collected. *)
Theorem collect_ignored_prunes (fuel : nat) (env : Env) (fp : string)
    (w : walk) (patterns : list string) (ext : string -> bool) :
  isIgnored env fp patterns = Ret true ->
  collect (S fuel) env fp w (Some patterns) ext =
  Ret {| files := files w; visited := visited w ++ [fp] |}.
Proof.
  intros Hign. simpl. rewrite Hign. reflexivity.
Qed.

Lemma collect_ignored_prunes_witness :
  collect 1 Demo.tree "src" {| files := []; visited := [] |}
          (Some ["src"]) (fun _ => true)
  = Ret {| files := []; visited := ["src"] |}
  /\ ls Demo.tree "src" = ["lib"; "ok.js"; "locked.js"].
Proof.
  split; [| reflexivity].
  apply (collect_ignored_prunes 0 Demo.tree "src" {| files := []; visited := [] |}).
  vm_compute. reflexivity.
Defined.

(** ** lint and run *)

Lemma clone_id (v : json) : Js.clone v = v.
Proof.
  revert v. fix IH 1. intros [| b | n | s | items | props]; simpl; try reflexivity.
  - f_equal. induction items as [| x xs IHxs]; simpl; [reflexivity |].
    rewrite (IH x), IHxs. reflexivity.
  - f_equal. induction props as [| [k x] ps IHps]; simpl; [reflexivity |].
    rewrite (IH x), IHps. reflexivity.
Qed.

Lemma clone_obj_id (o : obj) : Js.clone_obj o = o.
Proof.
  unfold Js.clone_obj. induction o as [| [k v] o IH]; simpl; [reflexivity |].
  rewrite clone_id, IH. reflexivity.
Qed.


Lemma heap_insert_eq (h : gmap nat obj) (l : nat) (o : obj) :
  <[l := o]> h !! l = Some o.
Proof. apply lookup_insert_eq. Qed.

Lemma heap_insert_ne (h : gmap nat obj) (l l' : nat) (o : obj) :
  l <> l' -> <[l := o]> h !! l' = h !! l'.
Proof. apply lookup_insert_ne. Qed.

Lemma fresh_lookup (h : gmap nat obj) : h !! fresh (dom h) = None.
Proof. apply not_elem_of_dom, is_fresh. Qed.

Lemma fresh_ne (h : gmap nat obj) l : is_Some (h !! l) -> fresh (dom h) <> l.
Proof. intros [o Ho] <-. rewrite fresh_lookup in Ho. discriminate. Qed.

Lemma push_findings (b : bool) (results extra : list finding) :
  (if b then results else results ++ extra) = results ++ (if b then [] else extra).
Proof. destruct b; [rewrite app_nil_r |]; reflexivity. Qed.

Lemma push_data (d : option obj) (f : string) (data : list obj) :
  match d with
  | Some lintData => data ++ [Js.set "file" (JStr f) lintData]
  | None => data
  end = data ++ match d with
                | Some lintData => [Js.set "file" (JStr f) lintData]
                | None => []
                end.
Proof. destruct d; [| rewrite app_nil_r]; reflexivity. Qed.

Ltac run_lint :=
  unfold lint, Mon.bind, Mon.ret, Mon.read, Mon.alloc, Mon.write, Mon.emit,
    Mon.lift; cbn [heap log].

Ltac frame_heap :=
  intros ? ?; cbn [heap];
  repeat (rewrite heap_insert_ne;
          [| first [ apply fresh_ne; assumption
                   | apply fresh_ne; rewrite heap_insert_ne;
                     [assumption | apply fresh_ne; assumption] ]]);
  reflexivity.

Lemma lint_readable_at env f results c data w o buf :
  heap w !! c = Some o -> cat env f = CatText buf ->
  exists w',
    lint env f results (Some c) data w =
      (Ret (results ++ file_findings env o f buf, data ++ file_data env o f buf), w')
    /\ log w' = log w ++ [EvEngine (strip_bom buf) (fst (engine_view o)) (snd (engine_view o))]
    /\ (forall l, is_Some (heap w !! l) -> heap w' !! l = heap w !! l).
Proof.
  intros Hcfg Hcat. run_lint. rewrite Hcfg. cbn [heap log]. rewrite Hcat.
  cbn [heap log]. rewrite heap_insert_eq, clone_obj_id.
  unfold file_findings, file_data, analyse, engine_view.
  destruct (Js.get "globals" o) as [g |] eqn:Hg; [destruct (Js.truthy g) eqn:Ht |];
    cbn [heap log fst snd]; rewrite heap_insert_eq;
    rewrite push_findings, push_data;
    (eexists; split; [reflexivity |]; split; [reflexivity |]); frame_heap.
Qed.

Lemma lint_readable_default env f results data w buf :
  cat env f = CatText buf ->
  exists w',
    lint env f results None data w =
      (Ret (results ++ file_findings env [] f buf, data ++ file_data env [] f buf), w')
    /\ log w' = log w ++ [EvEngine (strip_bom buf) [] None]
    /\ (forall l, is_Some (heap w !! l) -> heap w' !! l = heap w !! l).
Proof.
  intros Hcat. run_lint. rewrite heap_insert_eq. cbn [heap log]. rewrite Hcat.
  cbn [heap log Js.clone_obj List.map Js.get].
  rewrite heap_insert_eq.
  cbn [heap log Js.get]. rewrite heap_insert_eq.
  unfold file_findings, file_data, analyse, engine_view. cbn [Js.get fst snd].
  rewrite push_findings, push_data.
  eexists; split; [reflexivity |]; split; [reflexivity |]. frame_heap.
Qed.

Lemma lint_readable env f results cfg data w o buf :
  config_obj w cfg = Some o -> cat env f = CatText buf ->
  exists w',
    lint env f results cfg data w =
      (Ret (results ++ file_findings env o f buf, data ++ file_data env o f buf), w')
    /\ log w' = log w ++ [EvEngine (strip_bom buf) (fst (engine_view o)) (snd (engine_view o))]
    /\ (forall l, is_Some (heap w !! l) -> heap w' !! l = heap w !! l).
Proof.
  destruct cfg as [c |]; simpl.
  - apply lint_readable_at.
  - intros [= <-]. apply lint_readable_default.
Qed.

Lemma lint_unreadable env f results cfg data w o out msgs :
  config_obj w cfg = Some o -> read_failure f (cat env f) = Some (out, msgs) ->
  exists w',
    lint env f results cfg data w = (out, w')
    /\ log w' = log w ++ msgs
    /\ (forall l, is_Some (heap w !! l) -> heap w' !! l = heap w !! l).
Proof.
  intros Hcfg Hfail. destruct cfg as [c |]; simpl in Hcfg; run_lint.
  - rewrite Hcfg. cbn [heap log].
    destruct (cat env f) as [buf | | | code]; cbn [read_failure] in Hfail;
      inversion Hfail; subst; cbn [heap log];
      (eexists; split; [reflexivity |]; split;
       [cbn [log]; rewrite ?app_nil_r; reflexivity |]); frame_heap.
  - rewrite heap_insert_eq. cbn [heap log].
    destruct (cat env f) as [buf | | | code]; cbn [read_failure] in Hfail;
      inversion Hfail; subst; cbn [heap log];
      (eexists; split; [reflexivity |]; split;
       [cbn [log]; rewrite ?app_nil_r; reflexivity |]); frame_heap.
Qed.

Lemma reads_or_fails env f :
  readable env f
  \/ exists (out : outcome (list finding * list obj)) (msgs : list event),
       read_failure f (cat env f) = Some (out, msgs).
Proof.
  unfold readable.
  destruct (cat env f) as [buf | | | code]; cbn [read_failure];
    [left; exists buf; reflexivity | right; eexists _, _; reflexivity ..].
Qed.

Lemma content_readable env f buf : cat env f = CatText buf -> content env f = buf.
Proof. unfold content. intros ->. reflexivity. Qed.

Lemma config_obj_frame w w' cfg o :
  (forall l, is_Some (heap w !! l) -> heap w' !! l = heap w !! l) ->
  config_obj w cfg = Some o -> config_obj w' cfg = Some o.
Proof.
  intros Hframe. destruct cfg as [c |]; simpl; [| trivial].
  intros Hc. rewrite Hframe; [exact Hc | rewrite Hc; eauto].
Qed.

Lemma frame_trans (w w' w'' : world) :
  (forall l, is_Some (heap w !! l) -> heap w' !! l = heap w !! l) ->
  (forall l, is_Some (heap w' !! l) -> heap w'' !! l = heap w' !! l) ->
  forall l, is_Some (heap w !! l) -> heap w'' !! l = heap w !! l.
Proof.
  intros H1 H2 l Hl. rewrite H2; [apply H1, Hl | rewrite H1; assumption].
Qed.

Lemma lint_all_readable env cfg o fs :
  forall results data w,
    config_obj w cfg = Some o -> Forall (readable env) fs ->
    exists w',
      Mon.forEach (lint_each env cfg) fs (results, data) w =
        (Ret (results ++ all_findings env o fs, data ++ all_data env o fs), w')
      /\ log w' = log w ++ engine_events env o fs
      /\ (forall l, is_Some (heap w !! l) -> heap w' !! l = heap w !! l).
Proof.
  induction fs as [| f fs IH]; intros results data w Hcfg Hall.
  - exists w. unfold all_findings, all_data, engine_events. simpl.
    rewrite !app_nil_r. repeat split; reflexivity.
  - inversion Hall as [| ? ? [buf Hf] Hrest]; subst.
    destruct (lint_readable env f results cfg data w o buf Hcfg Hf)
      as (w1 & Hlint & Hlog1 & Hframe1).
    destruct (IH (results ++ file_findings env o f buf) (data ++ file_data env o f buf)
                 w1 (config_obj_frame _ _ _ _ Hframe1 Hcfg) Hrest)
      as (w2 & Hrun & Hlog2 & Hframe2).
    exists w2. split; [| split].
    + cbn [Mon.forEach]. unfold Mon.bind at 1. cbn [fst snd]. rewrite Hlint.
      rewrite Hrun. unfold all_findings, all_data. cbn [List.map List.concat].
      rewrite (content_readable env f buf Hf), !app_assoc. reflexivity.
    + rewrite Hlog2, Hlog1. unfold engine_events. cbn [List.map].
      rewrite (content_readable env f buf Hf), <- app_assoc. reflexivity.
    + exact (frame_trans w w1 w2 Hframe1 Hframe2).
Qed.

Lemma lint_all_unreadable env cfg o good f rest out msgs :
  forall results data w,
    config_obj w cfg = Some o -> Forall (readable env) good ->
    read_failure f (cat env f) = Some (out, msgs) ->
    exists w',
      Mon.forEach (lint_each env cfg) (good ++ f :: rest) (results, data) w = (out, w')
      /\ log w' = log w ++ engine_events env o good ++ msgs.
Proof.
  induction good as [| g good IH]; intros results data w Hcfg Hall Hf.
  - destruct (lint_unreadable env f results cfg data w o out msgs Hcfg Hf)
      as (w' & Hlint & Hlog & _).
    exists w'. split; [| exact Hlog].
    cbn [app Mon.forEach]. unfold Mon.bind at 1. cbn [fst snd]. rewrite Hlint.
    destruct (cat env f); cbn [read_failure] in Hf; inversion Hf; reflexivity.
  - inversion Hall as [| ? ? [buf Hg] Hrest]; subst.
    destruct (lint_readable env g results cfg data w o buf Hcfg Hg)
      as (w1 & Hlint & Hlog1 & Hframe1).
    destruct (IH (results ++ file_findings env o g buf) (data ++ file_data env o g buf)
                 w1 (config_obj_frame _ _ _ _ Hframe1 Hcfg) Hrest Hf)
      as (w2 & Hrun & Hlog2).
    exists w2. split.
    + cbn [app Mon.forEach]. unfold Mon.bind at 1. cbn [fst snd]. rewrite Hlint.
      exact Hrun.
    + rewrite Hlog2, Hlog1. unfold engine_events. cbn [List.map].
      rewrite (content_readable env g buf Hg), <- !app_assoc. reflexivity.
Qed.

Lemma filter_engine_events env o fs :
  List.filter is_reporter_call (engine_events env o fs) = [].
Proof. unfold engine_events. induction fs; simpl; [reflexivity | assumption]. Qed.

Lemma all_findings_nil env o fs :
  all_findings env o fs = [] <->
  (forall f, In f fs -> file_findings env o f (content env f) = []).
Proof.
  unfold all_findings. induction fs as [| f fs IH]; simpl.
  - split; [intros _ ? [] | reflexivity].
  - split.
    + intros H. apply app_eq_nil in H as [Hf Hfs]. intros x [<- | Hx]; [exact Hf |].
      apply IH; assumption.
    + intros H. rewrite (H f (or_introl eq_refl)). simpl. apply IH.
      intros x Hx. apply H. right. exact Hx.
Qed.

Lemma length_zero_iff {A} (l : list A) : Nat.eqb (List.length l) 0 = true <-> l = [].
Proof. destruct l; simpl; split; congruence. Qed.

(** C9: when the files are collected and every one of them can be read,
    [run] calls the reporter once with the findings of all files and
    returns [true] if and only if that list is empty, that is, if and
    only if no file contributed a finding; the auxiliary data plays no
    part. *)
Theorem run_passes_iff_no_findings (fuel : nat) (env : Env) (opts : options)
    (w : world) (re : string -> bool) (wk : walk) (o : obj) :
  RegExp env (ext_source (extensions opts)) = Some re ->
  forEach (fun w target => collect fuel env target w (ignores opts) re)
          (args opts) {| files := []; visited := [] |} = Ret wk ->
  Forall (readable env) (files wk) ->
  config_obj w (config opts) = Some o ->
  exists (b : bool) (w' : world),
    run fuel env opts w = (Ret b, w')
    /\ log w' = log w ++ engine_events env o (files wk)
                  ++ [EvReporter (reporter opts) (all_findings env o (files wk))
                                 (all_data env o (files wk))]
    /\ (b = true <-> all_findings env o (files wk) = [])
    /\ (b = true <->
        forall f, In f (files wk) -> file_findings env o f (content env f) = []).
Proof.
  intros Hre Hwalk Hread Hcfg.
  destruct (lint_all_readable env (config opts) o (files wk) [] [] w Hcfg Hread)
    as (w1 & Hrun & Hlog & _).
  exists (Nat.eqb (List.length (all_findings env o (files wk))) 0).
  eexists. split; [| split; [| split]].
  - unfold run. rewrite Hre. unfold Mon.bind at 1. unfold Mon.ret at 1.
    unfold Mon.bind at 1. unfold Mon.lift at 1. rewrite Hwalk.
    unfold Mon.bind at 1. rewrite Hrun. cbn [app fst snd].
    unfold Mon.bind, Mon.emit, Mon.ret. reflexivity.
  - cbn [log]. rewrite Hlog, <- app_assoc. reflexivity.
  - apply length_zero_iff.
  - rewrite length_zero_iff. apply all_findings_nil.
Qed.

(** C7: what [lint] and [run] do on a file that cannot be read depends
    on how [shjs.cat] fails.  When the call raises, [lint] reports
    [Can't open <file>] and ends the process with status 1.  When the
    call returns [null], as shelljs does for a file that is not there,
    the [catch] block is not entered: [lint] writes nothing and ends in
    the [TypeError] of [buffer.replace].  When the call ends the process
    itself, [lint] writes nothing either.  In [run], in each of the
    three cases, the first such file ends the run there: the files
    before it were analysed, the ones behind it are not, and the
    reporter is never called. *)
Theorem unreadable_file_aborts_run :
  (forall env f results cfg data w o,
     config_obj w cfg = Some o ->
     (cat env f = CatThrows ->
      exists w',
        lint env f results cfg data w = (Exit 1%Z, w')
        /\ log w' = log w ++ [EvCliError ("Can't open " +:+ f)])
     /\ (cat env f = CatNull ->
         exists w',
           lint env f results cfg data w = (Throw (TypeError "buffer.replace"), w')
           /\ log w' = log w)
     /\ (forall code, cat env f = CatExits code ->
         exists w',
           lint env f results cfg data w = (Exit code, w') /\ log w' = log w))
  /\
  (forall fuel env opts w re wk o good f rest,
     RegExp env (ext_source (extensions opts)) = Some re ->
     forEach (fun w target => collect fuel env target w (ignores opts) re)
             (args opts) {| files := []; visited := [] |} = Ret wk ->
     files wk = good ++ f :: rest ->
     Forall (readable env) good -> ~ readable env f ->
     config_obj w (config opts) = Some o ->
     exists (out : outcome bool) (w' : world),
       run fuel env opts w = (out, w')
       /\ (forall b, out <> Ret b)
       /\ List.filter is_reporter_call (log w') = List.filter is_reporter_call (log w)
       /\ (cat env f = CatThrows ->
           out = Exit 1%Z
           /\ log w' = log w ++ engine_events env o good
                         ++ [EvCliError ("Can't open " +:+ f)])
       /\ (cat env f = CatNull ->
           out = Throw (TypeError "buffer.replace")
           /\ log w' = log w ++ engine_events env o good)
       /\ (forall code, cat env f = CatExits code ->
           out = Exit code /\ log w' = log w ++ engine_events env o good)).
Proof.
  split.
  - intros env f results cfg data w o Hcfg. split; [| split].
    + intros Hcat.
      destruct (lint_unreadable env f results cfg data w o (Exit 1%Z)
                  [EvCliError ("Can't open " +:+ f)] Hcfg) as (w' & H1 & H2 & _);
        [rewrite Hcat; reflexivity |].
      exists w'. split; assumption.
    + intros Hcat.
      destruct (lint_unreadable env f results cfg data w o
                  (Throw (TypeError "buffer.replace")) [] Hcfg) as (w' & H1 & H2 & _);
        [rewrite Hcat; reflexivity |].
      exists w'. rewrite app_nil_r in H2. split; assumption.
    + intros code Hcat.
      destruct (lint_unreadable env f results cfg data w o (Exit code) [] Hcfg)
        as (w' & H1 & H2 & _); [rewrite Hcat; reflexivity |].
      exists w'. rewrite app_nil_r in H2. split; assumption.
  - intros fuel env opts w re wk o good f rest Hre Hwalk Hfiles Hgood Hno Hcfg.
    assert (Hrun : forall (out : outcome (list finding * list obj)) (out' : outcome bool)
                          msgs,
               read_failure f (cat env f) = Some (out, msgs) ->
               (forall k : list finding * list obj -> M bool, forall w1,
                   Mon.bind (fun w0 => (out, w1)) k w = (out', w1)) ->
               exists w',
                 run fuel env opts w = (out', w')
                 /\ log w' = log w ++ engine_events env o good ++ msgs).
    { intros out out' msgs Hfail Hbind.
      destruct (lint_all_unreadable env (config opts) o good f rest out msgs [] [] w
                  Hcfg Hgood Hfail) as (w' & Hall & Hlog).
      exists w'. split; [| exact Hlog].
      unfold run. rewrite Hre. unfold Mon.bind at 1. unfold Mon.ret at 1.
      unfold Mon.bind at 1. unfold Mon.lift at 1. rewrite Hwalk.
      rewrite Hfiles. specialize (Hbind
        (fun rd => Mon.bind (Mon.emit (EvReporter (reporter opts) (fst rd) (snd rd)))
                     (fun _ => Mon.ret (Nat.eqb (List.length (fst rd)) 0))) w').
      unfold Mon.bind at 1 in Hbind. unfold Mon.bind at 1. rewrite Hall.
      exact Hbind. }
    assert (Hquiet : forall w' msgs,
               log w' = log w ++ engine_events env o good ++ msgs ->
               List.filter is_reporter_call msgs = [] ->
               List.filter is_reporter_call (log w')
               = List.filter is_reporter_call (log w)).
    { intros w' msgs -> Hmsgs.
      rewrite !List.filter_app, filter_engine_events, Hmsgs, !app_nil_r.
      reflexivity. }
    destruct (cat env f) as [buf | | | code] eqn:Hcat.
    + exfalso. apply Hno. exists buf. exact Hcat.
    + destruct (Hrun (Throw (TypeError "buffer.replace"))
                     (Throw (TypeError "buffer.replace")) [] eq_refl)
        as (w' & Hout & Hlog); [reflexivity |].
      exists (Throw (TypeError "buffer.replace")), w'.
      split; [exact Hout |]. split; [discriminate |].
      split; [apply (Hquiet w' [] Hlog eq_refl) |].
      rewrite app_nil_r in Hlog.
      split; [discriminate |]. split; [intros _; split; [reflexivity | exact Hlog] |].
      discriminate.
    + destruct (Hrun (Exit 1%Z) (Exit 1%Z) [EvCliError ("Can't open " +:+ f)] eq_refl)
        as (w' & Hout & Hlog); [reflexivity |].
      exists (Exit 1%Z), w'.
      split; [exact Hout |]. split; [discriminate |].
      split; [apply (Hquiet w' _ Hlog eq_refl) |].
      split; [intros _; split; [reflexivity | exact Hlog] |].
      split; discriminate.
    + destruct (Hrun (Exit code) (Exit code) [] eq_refl)
        as (w' & Hout & Hlog); [reflexivity |].
      exists (Exit code), w'.
      split; [exact Hout |]. split; [discriminate |].
      split; [apply (Hquiet w' [] Hlog eq_refl) |].
      rewrite app_nil_r in Hlog.
      split; [discriminate |]. split; [discriminate |].
      intros c [= <-]. split; [reflexivity | exact Hlog].
Qed.




Lemma run_passes_iff_no_findings_witness :
  exists (b : bool) (w' : world),
    run 3 Demo.tree (Demo.opts (Some ["src/l*"])) (Demo.world_of Demo.with_globals)
      = (Ret b, w')
    /\ log w' = [EvEngine "var x = 1;" [("undef", JBool true)] (Some (JObj [("x", JBool true)]));
                 EvReporter None [] [[("functions", JArr []); ("file", JStr "src/ok.js")]]]
    /\ (b = true <-> @nil finding = [])
    /\ (b = true <->
        forall f, In f ["src/ok.js"] ->
                  file_findings Demo.tree Demo.with_globals f (content Demo.tree f) = []).
Proof.
  eapply (run_passes_iff_no_findings 3 Demo.tree (Demo.opts (Some ["src/l*"]))
            (Demo.world_of Demo.with_globals) _
            {| files := ["src/ok.js"];
               visited := ["src"; "src/lib"; "src/ok.js"; "src/locked.js"] |}
            Demo.with_globals).
  - cbv. reflexivity.
  - vm_compute. reflexivity.
  - repeat constructor. exists "var x = 1;". reflexivity.
  - reflexivity.
Defined.

Lemma unreadable_file_aborts_run_witness :
  (exists w',
     run 1 Demo.flat (Demo.targets ["ok.js"; "gone.js"; "ok.js"])
         (Demo.world_of Demo.with_globals)
       = (Throw (TypeError "buffer.replace"), w')
     /\ log w' = [EvEngine "var x = 1;" [("undef", JBool true)]
                           (Some (JObj [("x", JBool true)]))])
  /\ (exists w',
        run 3 Demo.tree (Demo.opts None) (Demo.world_of Demo.with_globals)
          = (Exit 1%Z, w')
        /\ log w' = [EvEngine "eval(x);" [("undef", JBool true)]
                              (Some (JObj [("x", JBool true)]));
                     EvEngine "var x = 1;" [("undef", JBool true)]
                              (Some (JObj [("x", JBool true)]));
                     EvCliError "Can't open src/locked.js"]).
Proof.
  destruct unreadable_file_aborts_run as [_ Hrun]. split.
  - destruct (Hrun 1 Demo.flat (Demo.targets ["ok.js"; "gone.js"; "ok.js"])
                (Demo.world_of Demo.with_globals)
                (default (fun _ => false) (Ref.compile (ext_source EmptyString)))
                {| files := ["ok.js"; "gone.js"; "ok.js"];
                   visited := ["ok.js"; "gone.js"; "ok.js"] |}
                Demo.with_globals ["ok.js"] "gone.js" ["ok.js"])
      as (out & w' & Hout & _ & _ & _ & Hnull & _).
    + vm_compute. reflexivity.
    + vm_compute. reflexivity.
    + reflexivity.
    + repeat constructor. exists "var x = 1;". reflexivity.
    + intros [buffer Hbuffer]. vm_compute in Hbuffer. discriminate.
    + reflexivity.
    + destruct (Hnull eq_refl) as [-> Hlog]. exists w'. split; assumption.
  - destruct (Hrun 3 Demo.tree (Demo.opts None) (Demo.world_of Demo.with_globals)
                (default (fun _ => false) (Ref.compile (ext_source EmptyString)))
                {| files := ["src/lib/a.js"; "src/ok.js"; "src/locked.js"];
                   visited := ["src"; "src/lib"; "src/lib/a.js"; "src/ok.js";
                               "src/locked.js"] |}
                Demo.with_globals ["src/lib/a.js"; "src/ok.js"] "src/locked.js" [])
      as (out & w' & Hout & _ & _ & Hthrows & _).
    + vm_compute. reflexivity.
    + vm_compute. reflexivity.
    + reflexivity.
    + repeat constructor; eexists; reflexivity.
    + intros [buffer Hbuffer]. vm_compute in Hbuffer. discriminate.
    + reflexivity.
    + destruct (Hthrows eq_refl) as [-> Hlog]. exists w'. split; assumption.
Defined.

(** ** removeComments *)

Create HintDb strip.
#[local] Hint Constructors subseq : strip.

Lemma subseq_refl s : subseq s s.
Proof. induction s; auto with strip. Qed.

#[local] Hint Resolve subseq_refl : strip.

Lemma subseq_trans a b c : subseq a b -> subseq b c -> subseq a c.
Proof.
  intros Hab Hbc. revert a Hab.
  induction Hbc as [| x b c Hbc IH | x b c Hbc IH]; intros a Hab.
  - exact Hab.
  - constructor. apply IH. exact Hab.
  - inversion Hab; subst.
    + constructor. apply IH. assumption.
    + apply subseq_keep. apply IH. assumption.
Qed.

Lemma subseq_tail s : subseq (Str.tail s) s.
Proof. destruct s; simpl; auto with strip. Qed.

#[local] Hint Resolve subseq_tail : strip.

Lemma after_close_subseq s r : Comments.after_close s = Some r -> subseq r s.
Proof.
  induction s as [| a s IH]; cbn [Comments.after_close]; [discriminate |].
  destruct (Str.is_prefix "*/" (String a s)).
  - intros [= <-]. constructor. apply subseq_tail.
  - intros H. constructor. apply IH. exact H.
Qed.

Lemma tail_length s : String.length (Str.tail s) <= String.length s.
Proof. destruct s; simpl; lia. Qed.

Lemma after_close_length s r :
  Comments.after_close s = Some r -> String.length r < String.length s.
Proof.
  revert r. induction s as [| a s IH]; intros r; cbn [Comments.after_close];
    [discriminate |].
  destruct (Str.is_prefix "*/" (String a s)).
  - intros [= <-]. pose proof (tail_length s). simpl. lia.
  - intros H. apply IH in H. simpl. lia.
Qed.

Lemma to_eol_subseq s : subseq (Comments.to_eol s) s.
Proof.
  induction s as [| a s IH]; simpl; [constructor |].
  destruct (Comments.line_break a); auto with strip.
Qed.

Lemma to_eol_length s : String.length (Comments.to_eol s) <= String.length s.
Proof.
  induction s as [| a s IH]; simpl; [lia |].
  destruct (Comments.line_break a); simpl; lia.
Qed.

Lemma strip_block_subseq n : forall s, subseq (Comments.strip_block n s) s.
Proof.
  induction n as [| n IH]; intros s; [apply subseq_refl |].
  destruct s as [| a s]; [constructor |]. cbn [Comments.strip_block].
  destruct (Str.is_prefix "/*" (String a s)).
  - destruct (Comments.after_close (Str.tail s)) as [rest |] eqn:Hclose.
    + constructor. eapply subseq_trans; [apply IH |].
      eapply subseq_trans; [apply after_close_subseq; exact Hclose | apply subseq_tail].
    + apply subseq_keep. apply IH.
  - apply subseq_keep. apply IH.
Qed.

Lemma strip_line_subseq n : forall s, subseq (Comments.strip_line n s) s.
Proof.
  induction n as [| n IH]; intros s; [apply subseq_refl |].
  destruct s as [| a s]; [constructor |]. cbn [Comments.strip_line].
  destruct (Str.is_prefix "//" (String a s)).
  - constructor. eapply subseq_trans; [apply IH |].
    eapply subseq_trans; [apply to_eol_subseq | apply subseq_tail].
  - apply subseq_keep. apply IH.
Qed.

(** Fuel beyond the length of the text changes nothing. *)
Lemma strip_block_fuel n : forall m s,
  String.length s <= n -> String.length s <= m ->
  Comments.strip_block n s = Comments.strip_block m s.
Proof.
  induction n as [| n IH]; intros m s Hn Hm.
  - destruct s; simpl in Hn; [| lia]. destruct m; reflexivity.
  - destruct m as [| m]; [destruct s; simpl in Hm; [reflexivity | lia] |].
    destruct s as [| a s]; [reflexivity |]. simpl in Hn, Hm. 
    cbn [Comments.strip_block].
    destruct (Str.is_prefix "/*" (String a s)).
    + destruct (Comments.after_close (Str.tail s)) as [rest |] eqn:Hclose.
      * apply after_close_length in Hclose. pose proof (tail_length s).
        apply IH; lia.
      * f_equal. apply IH; lia.
    + f_equal. apply IH; lia.
Qed.

Lemma strip_line_fuel n : forall m s,
  String.length s <= n -> String.length s <= m ->
  Comments.strip_line n s = Comments.strip_line m s.
Proof.
  induction n as [| n IH]; intros m s Hn Hm.
  - destruct s; simpl in Hn; [| lia]. destruct m; reflexivity.
  - destruct m as [| m]; [destruct s; simpl in Hm; [reflexivity | lia] |].
    destruct s as [| a s]; [reflexivity |]. simpl in Hn, Hm.
    cbn [Comments.strip_line].
    destruct (Str.is_prefix "//" (String a s)).
    + pose proof (to_eol_length (Str.tail s)). pose proof (tail_length s).
      apply IH; lia.
    + f_equal. apply IH; lia.
Qed.

Lemma strip_block_none n : forall s,
  Str.is_substring "/*" s = false -> Comments.strip_block n s = s.
Proof.
  induction n as [| n IH]; intros s H; [reflexivity |].
  destruct s as [| a s]; [reflexivity |].
  cbn [Comments.strip_block]. cbn [Str.is_substring] in H.
  apply orb_false_iff in H as [Hp Hs]. rewrite Hp, (IH s Hs). reflexivity.
Qed.

Lemma strip_line_none n : forall s,
  Str.is_substring "//" s = false -> Comments.strip_line n s = s.
Proof.
  induction n as [| n IH]; intros s H; [reflexivity |].
  destruct s as [| a s]; [reflexivity |].
  cbn [Comments.strip_line]. cbn [Str.is_substring] in H.
  apply orb_false_iff in H as [Hp Hs]. rewrite Hp, (IH s Hs). reflexivity.
Qed.

Lemma is_prefix_two x y a s :
  Str.is_prefix (String x (String y EmptyString)) (String a s)
  = Ascii.eqb x a && Str.starts_with_char y s.
Proof.
  cbn [Str.is_prefix]. destruct s as [| b t]; cbn [Str.starts_with_char]; [reflexivity |].
  rewrite andb_true_r, (Ascii.eqb_sym y b). reflexivity.
Qed.

Lemma strip_line_head n s :
  String.length s <= n ->
  Str.starts_with_char "/" (Comments.strip_line n s) = true ->
  Str.starts_with_char "/" s = true.
Proof.
  destruct n as [| n]; [trivial |].
  destruct s as [| a s]; [trivial |].
  cbn [Comments.strip_line].
  destruct (Str.is_prefix "//" (String a s)) eqn:Hp.
  - intros _ _. rewrite is_prefix_two in Hp. apply andb_true_iff in Hp as [Ha _].
    cbn [Str.starts_with_char]. rewrite Ascii.eqb_sym. exact Ha.
  - trivial.
Qed.

Lemma strip_line_no_dslash n : forall s,
  String.length s <= n ->
  Str.is_substring "//" (Comments.strip_line n s) = false.
Proof.
  induction n as [| n IH]; intros s Hn.
  - destruct s; simpl in Hn; [reflexivity | lia].
  - destruct s as [| a s]; [reflexivity |]. simpl in Hn.
    cbn [Comments.strip_line].
    destruct (Str.is_prefix "//" (String a s)) eqn:Hp.
    + pose proof (to_eol_length (Str.tail s)). pose proof (tail_length s).
      apply IH. lia.
    + cbn [Str.is_substring]. rewrite (IH s) by lia. rewrite orb_false_r.
      rewrite is_prefix_two in Hp |- *.
      destruct (Ascii.eqb "/" a); [| reflexivity]. cbn [andb] in Hp |- *.
      destruct (Str.starts_with_char "/" (Comments.strip_line n s)) eqn:Hhead;
        [| reflexivity].
      apply strip_line_head in Hhead; [congruence | lia].
Qed.

Lemma removeComments_eq s :
  removeComments (StrVal s) =
  Comments.strip_line (String.length (Comments.strip_block (String.length s) s))
                      (Comments.strip_block (String.length s) s).
Proof. reflexivity. Qed.

Lemma after_close_first b rest :
  Str.is_substring "*/" b = false ->
  Comments.after_close (b +:+ "*/" +:+ rest) = Some rest.
Proof.
  induction b as [| x b IH]; intros H.
  - reflexivity.
  - cbn [Str.is_substring] in H. apply orb_false_iff in H as [Hp Hs].
    change (String x b +:+ "*/" +:+ rest) with (String x (b +:+ "*/" +:+ rest)).
    cbn [Comments.after_close].
    assert (Hq : Str.is_prefix "*/" (String x (b +:+ "*/" +:+ rest)) = false).
    { rewrite is_prefix_two in Hp |- *.
      destruct (Ascii.eqb "*" x); [| reflexivity]. cbn [andb] in Hp |- *.
      destruct b as [| y b]; [reflexivity | exact Hp]. }
    rewrite Hq. apply IH. exact Hs.
Qed.

Lemma append_length a b : String.length (a +:+ b) = String.length a + String.length b.
Proof. induction a; simpl; [reflexivity | rewrite IHa; reflexivity]. Qed.

Lemma strip_block_step n a s :
  Comments.strip_block (S n) (String a s) =
  if Str.is_prefix "/*" (String a s) then
    match Comments.after_close (Str.tail s) with
    | Some rest => Comments.strip_block n rest
    | None => String a (Comments.strip_block n s)
    end
  else String a (Comments.strip_block n s).
Proof. reflexivity. Qed.

Lemma removeComments_block b rest :
  Str.is_substring "*/" b = false ->
  removeComments (StrVal ("/*" +:+ b +:+ "*/" +:+ rest)) = removeComments (StrVal rest).
Proof.
  intros Hb. rewrite !removeComments_eq.
  assert (Hblock :
    Comments.strip_block (String.length ("/*" +:+ b +:+ "*/" +:+ rest))
                         ("/*" +:+ b +:+ "*/" +:+ rest)
    = Comments.strip_block (String.length rest) rest).
  { change ("/*" +:+ b +:+ "*/" +:+ rest)
      with (String "/" (String "*" (b +:+ "*/" +:+ rest))).
    cbn [String.length]. rewrite strip_block_step, is_prefix_two.
    cbn [Ascii.eqb Bool.eqb Str.starts_with_char andb Str.tail].
    rewrite (after_close_first b rest Hb).
    apply strip_block_fuel; [| lia]. rewrite !append_length. simpl. lia. }
  rewrite Hblock. reflexivity.
Qed.

Lemma removeComments_subseq s : subseq (removeComments (StrVal s)) s.
Proof.
  rewrite removeComments_eq.
  eapply subseq_trans; [apply strip_line_subseq | apply strip_block_subseq].
Qed.

Lemma removeComments_no_line_comment s :
  Str.is_substring "//" (removeComments (StrVal s)) = false.
Proof. rewrite removeComments_eq. apply strip_line_no_dslash. lia. Qed.

Lemma removeComments_again s :
  Str.is_substring "/*" (removeComments (StrVal s)) = false ->
  removeComments (StrVal (removeComments (StrVal s))) = removeComments (StrVal s).
Proof.
  intros Hblock. rewrite (removeComments_eq (removeComments (StrVal s))).
  rewrite (strip_block_none _ _ Hblock).
  apply strip_line_none, removeComments_no_line_comment.
Qed.

(** *** The two passes, one comment at a time *)

Lemma cons_append c a r : String c a +:+ r = String c (a +:+ r).
Proof. reflexivity. Qed.

Lemma strip_line_step n a s :
  Comments.strip_line (S n) (String a s) =
  if Str.is_prefix "//" (String a s)
  then Comments.strip_line n (Comments.to_eol (Str.tail s))
  else String a (Comments.strip_line n s).
Proof. reflexivity. Qed.

(** A two-character mark that opens neither [x a] nor a text behind it
    does not open [x (a r)] when [r] starts with the first character
    of the mark and the two characters differ, or when [a] does not end
    with it. *)
Lemma is_prefix_two_app x y c a r :
  Str.is_prefix (String x (String y EmptyString)) (String c a) = false ->
  (a = EmptyString ->
   Ascii.eqb x c && Str.starts_with_char y r = false) ->
  Str.is_prefix (String x (String y EmptyString)) (String c (a +:+ r)) = false.
Proof.
  intros Hp Hr. destruct a as [| d a].
  - rewrite is_prefix_two. apply Hr. reflexivity.
  - rewrite is_prefix_two in Hp |- *. exact Hp.
Qed.

Lemma without_blocks_prefix a r :
  Str.is_substring "/*" a = false ->
  without_blocks (a +:+ "/*" +:+ r) = a +:+ without_blocks ("/*" +:+ r).
Proof.
  unfold without_blocks. induction a as [| x a IH]; intros Ha; [reflexivity |].
  cbn [Str.is_substring] in Ha. apply orb_false_iff in Ha as [Hp Ha].
  rewrite !(cons_append x a). cbn [String.length]. rewrite strip_block_step.
  rewrite (is_prefix_two_app "/" "*" x a ("/*" +:+ r) Hp).
  - rewrite (IH Ha). reflexivity.
  - intros _. cbn [Str.starts_with_char]. apply andb_false_r.
Qed.

Lemma after_close_none s :
  Str.is_substring "*/" s = false -> Comments.after_close s = None.
Proof.
  induction s as [| x s IH]; intros H; [reflexivity |].
  cbn [Str.is_substring] in H. apply orb_false_iff in H as [Hp Hs].
  cbn [Comments.after_close]. rewrite Hp. apply IH. exact Hs.
Qed.

Lemma is_substring_tail needle s :
  Str.is_substring needle s = false -> Str.is_substring needle (Str.tail s) = false.
Proof.
  destruct s as [| x s]; [trivial |]. cbn [Str.is_substring Str.tail].
  intros H. apply orb_false_iff in H as [_ H]. exact H.
Qed.

(** Where no [*/] stands behind the first character, nothing is
    dropped. *)
Lemma strip_block_unclosed n : forall s,
  Str.is_substring "*/" (Str.tail s) = false -> Comments.strip_block n s = s.
Proof.
  induction n as [| n IH]; intros s H; [reflexivity |].
  destruct s as [| x s]; [reflexivity |]. cbn [Str.tail] in H.
  rewrite strip_block_step.
  rewrite (after_close_none (Str.tail s) (is_substring_tail _ _ H)).
  rewrite (IH s (is_substring_tail _ _ H)).
  destruct (Str.is_prefix "/*" (String x s)); reflexivity.
Qed.

Lemma without_blocks_open t :
  Str.is_substring "*/" t = false -> without_blocks ("/*" +:+ t) = "/*" +:+ t.
Proof.
  intros Ht. unfold without_blocks.
  change ("/*" +:+ t) with (String "/" (String "*" t)).
  cbn [String.length]. rewrite strip_block_step, is_prefix_two.
  cbn [Ascii.eqb Bool.eqb Str.starts_with_char andb Str.tail].
  rewrite (after_close_none t Ht).
  rewrite (strip_block_unclosed _ (String "*" t) Ht). reflexivity.
Qed.

Lemma without_blocks_comment b c :
  Str.is_substring "*/" b = false ->
  without_blocks ("/*" +:+ b +:+ "*/" +:+ c) = without_blocks c.
Proof.
  intros Hb. unfold without_blocks.
  change ("/*" +:+ b +:+ "*/" +:+ c) with (String "/" (String "*" (b +:+ "*/" +:+ c))).
  cbn [String.length]. rewrite strip_block_step, is_prefix_two.
  cbn [Ascii.eqb Bool.eqb Str.starts_with_char andb Str.tail].
  rewrite (after_close_first b c Hb).
  apply strip_block_fuel; [| lia]. rewrite !append_length. simpl. lia.
Qed.

Lemma without_blocks_spec : strips_blocks without_blocks.
Proof.
  split; [| split].
  - intros s Hs. apply strip_block_none. exact Hs.
  - intros a t Ha Ht.
    rewrite (without_blocks_prefix a t Ha), (without_blocks_open t Ht). reflexivity.
  - intros a b c Ha Hb.
    rewrite (without_blocks_prefix a _ Ha), (without_blocks_comment b c Hb).
    reflexivity.
Qed.

Lemma without_lines_prefix a r :
  Str.is_substring "//" a = false -> Str.ends_with_char "/" a = false ->
  without_lines (a +:+ "//" +:+ r) = a +:+ without_lines ("//" +:+ r).
Proof.
  unfold without_lines. induction a as [| x a IH]; intros Ha Hend; [reflexivity |].
  cbn [Str.is_substring] in Ha. apply orb_false_iff in Ha as [Hp Ha].
  rewrite !(cons_append x a). cbn [String.length]. rewrite strip_line_step.
  rewrite (is_prefix_two_app "/" "/" x a ("//" +:+ r) Hp).
  - rewrite IH; [reflexivity | exact Ha |].
    destruct a; [reflexivity | exact Hend].
  - intros ->. cbn [Str.ends_with_char] in Hend.
    rewrite (Ascii.eqb_sym "/" x), Hend. reflexivity.
Qed.

Lemma to_eol_line b : one_line b -> Comments.to_eol b = EmptyString.
Proof.
  intros [Hn Hr]. induction b as [| x b IH]; [reflexivity |].
  cbn [Str.has_char] in Hn, Hr.
  apply orb_false_iff in Hn as [Hxn Hn]. apply orb_false_iff in Hr as [Hxr Hr].
  cbn [Comments.to_eol]. unfold Comments.line_break.
  rewrite Hxn, Hxr. cbn [orb]. apply IH; assumption.
Qed.

Lemma to_eol_break b nl c :
  one_line b -> Comments.line_break nl = true ->
  Comments.to_eol (b +:+ String nl c) = String nl c.
Proof.
  intros [Hn Hr] Hnl. induction b as [| x b IH].
  - change (EmptyString +:+ String nl c) with (String nl c).
    cbn [Comments.to_eol]. rewrite Hnl. reflexivity.
  - cbn [Str.has_char] in Hn, Hr.
    apply orb_false_iff in Hn as [Hxn Hn]. apply orb_false_iff in Hr as [Hxr Hr].
    rewrite cons_append. cbn [Comments.to_eol]. unfold Comments.line_break at 1.
    rewrite Hxn, Hxr. cbn [orb]. apply IH; assumption.
Qed.

Lemma line_break_not_slash nl :
  Comments.line_break nl = true -> Ascii.eqb "/" nl = false.
Proof.
  unfold Comments.line_break. intros H. apply orb_true_iff in H as [H | H];
    apply Ascii.eqb_eq in H; subst; reflexivity.
Qed.

Lemma without_lines_to_end b :
  one_line b -> without_lines ("//" +:+ b) = EmptyString.
Proof.
  intros Hb. unfold without_lines.
  change ("//" +:+ b) with (String "/" (String "/" b)).
  cbn [String.length]. rewrite strip_line_step, is_prefix_two.
  cbn [Ascii.eqb Bool.eqb Str.starts_with_char andb Str.tail].
  rewrite (to_eol_line b Hb). reflexivity.
Qed.

Lemma without_lines_comment b nl c :
  one_line b -> Comments.line_break nl = true ->
  without_lines ("//" +:+ b +:+ String nl c) = String nl (without_lines c).
Proof.
  intros Hb Hnl. unfold without_lines.
  change ("//" +:+ b +:+ String nl c) with (String "/" (String "/" (b +:+ String nl c))).
  cbn [String.length]. rewrite strip_line_step, is_prefix_two.
  cbn [Ascii.eqb Bool.eqb Str.starts_with_char andb Str.tail].
  rewrite (to_eol_break b nl c Hb Hnl).
  rewrite (strip_line_fuel _ (S (String.length c)) (String nl c)).
  - rewrite strip_line_step, is_prefix_two, (line_break_not_slash nl Hnl).
    reflexivity.
  - rewrite append_length. simpl. lia.
  - simpl. lia.
Qed.

Lemma without_lines_spec : strips_lines without_lines.
Proof.
  split; [| split].
  - intros s Hs. apply strip_line_none. exact Hs.
  - intros a b Ha Hend Hb.
    rewrite (without_lines_prefix a b Ha Hend), (without_lines_to_end b Hb).
    clear. induction a as [| x a IH]; [reflexivity |].
    rewrite cons_append, IH. reflexivity.
  - intros a b nl c Ha Hend Hb Hnl.
    rewrite (without_lines_prefix a _ Ha Hend), (without_lines_comment b nl c Hb Hnl).
    reflexivity.
Qed.

(** *** The description determines the result *)

(** The first place where a two-character mark stands. *)
Lemma first_mark x y s :
  Str.is_substring (String x (String y EmptyString)) s = true ->
  exists a t,
    s = a +:+ String x (String y t)
    /\ Str.is_substring (String x (String y EmptyString)) a = false
    /\ (Str.ends_with_char x a = true -> Ascii.eqb x y = false).
Proof.
  induction s as [| c s IH]; [discriminate |].
  cbn [Str.is_substring].
  destruct (Str.is_prefix (String x (String y EmptyString)) (String c s)) eqn:Hp.
  - intros _. rewrite is_prefix_two in Hp. apply andb_true_iff in Hp as [Hc Hs].
    apply Ascii.eqb_eq in Hc. subst c.
    destruct s as [| d t]; [discriminate |]. cbn [Str.starts_with_char] in Hs.
    apply Ascii.eqb_eq in Hs. subst d.
    exists EmptyString, t. split; [reflexivity |]. split; [reflexivity | discriminate].
  - cbn [orb]. intros Hs. destruct (IH Hs) as (a & t & -> & Ha & Hend).
    exists (String c a), t. split; [reflexivity |]. split.
    + cbn [Str.is_substring]. rewrite Ha, orb_false_r.
      rewrite is_prefix_two in Hp |- *.
      destruct a as [| d a]; [apply andb_false_r | exact Hp].
    + destruct a as [| d a]; [| exact Hend].
      cbn [Str.ends_with_char]. intros Hc. apply Ascii.eqb_eq in Hc. subst c.
      rewrite is_prefix_two in Hp. rewrite Ascii.eqb_refl in Hp.
      cbn [andb] in Hp.
      change (Str.starts_with_char y (String x (String y t)) = false) in Hp.
      exact Hp.
Qed.

(** A text is one line, or it has a first line break. *)
Lemma first_break t :
  one_line t
  \/ exists b nl c,
       t = b +:+ String nl c /\ one_line b /\ Comments.line_break nl = true.
Proof.
  induction t as [| x t IH]; [left; split; reflexivity |].
  destruct (Comments.line_break x) eqn:Hx.
  - right. exists EmptyString, x, t. repeat split. exact Hx.
  - unfold Comments.line_break in Hx. apply orb_false_iff in Hx as [Hn Hr].
    destruct IH as [[Hn' Hr'] | (b & nl & c & -> & [Hn' Hr'] & Hnl)].
    + left. split; cbn [Str.has_char]; [rewrite Hn, Hn' | rewrite Hr, Hr'];
        reflexivity.
    + right. exists (String x b), nl, c. split; [reflexivity |]. split; [| exact Hnl].
      split; cbn [Str.has_char]; [rewrite Hn, Hn' | rewrite Hr, Hr']; reflexivity.
Qed.

Lemma strips_blocks_unique f :
  strips_blocks f -> forall s, f s = without_blocks s.
Proof.
  intros (Hf1 & Hf2 & Hf3). destruct without_blocks_spec as (Hw1 & Hw2 & Hw3).
  assert (Hlen : forall n s, String.length s < n -> f s = without_blocks s).
  { induction n as [| n IH]; intros s Hs; [lia |].
    destruct (Str.is_substring "/*" s) eqn:Hopen.
    - destruct (first_mark "/" "*" s Hopen) as (a & t & -> & Ha & _).
      change (a +:+ String "/" (String "*" t)) with (a +:+ "/*" +:+ t) in *.
      destruct (Str.is_substring "*/" t) eqn:Hclose.
      + destruct (first_mark "*" "/" t Hclose) as (b & c & -> & Hb & _).
        change (b +:+ String "*" (String "/" c)) with (b +:+ "*/" +:+ c) in *.
        rewrite (Hf3 a b c Ha Hb), (Hw3 a b c Ha Hb). f_equal. apply IH.
        rewrite !append_length in Hs. simpl in Hs. lia.
      + rewrite (Hf2 a t Ha Hclose), (Hw2 a t Ha Hclose). reflexivity.
    - rewrite (Hf1 s Hopen), (Hw1 s Hopen). reflexivity. }
  intros s. apply (Hlen (S (String.length s))). lia.
Qed.

Lemma strips_lines_unique g :
  strips_lines g -> forall s, g s = without_lines s.
Proof.
  intros (Hg1 & Hg2 & Hg3). destruct without_lines_spec as (Hw1 & Hw2 & Hw3).
  assert (Hlen : forall n s, String.length s < n -> g s = without_lines s).
  { induction n as [| n IH]; intros s Hs; [lia |].
    destruct (Str.is_substring "//" s) eqn:Hopen.
    - destruct (first_mark "/" "/" s Hopen) as (a & t & -> & Ha & Hend).
      change (a +:+ String "/" (String "/" t)) with (a +:+ "//" +:+ t) in *.
      assert (Hend' : Str.ends_with_char "/" a = false).
      { destruct (Str.ends_with_char "/" a); [| reflexivity].
        specialize (Hend eq_refl). discriminate. }
      destruct (first_break t) as [Ht | (b & nl & c & -> & Hb & Hnl)].
      + rewrite (Hg2 a t Ha Hend' Ht), (Hw2 a t Ha Hend' Ht). reflexivity.
      + rewrite (Hg3 a b nl c Ha Hend' Hb Hnl), (Hw3 a b nl c Ha Hend' Hb Hnl).
        do 2 f_equal. apply IH.
        rewrite !append_length in Hs. simpl in Hs. lia.
    - rewrite (Hg1 s Hopen), (Hw1 s Hopen). reflexivity. }
  intros s. apply (Hlen (S (String.length s))). lia.
Qed.

(** C8, as the code has it.  [removeComments] makes two passes: the
    block comments are dropped first, the line comments of what is left
    after that.  A block comment runs from a [/*] to the first [*/]
    behind it, and a [/*] with no [*/] behind it stays; a line comment
    runs from [//] up to the next line break, which stays, or to the end
    of the text.  All other text is kept, in its order, and this
    description leaves no choice: whatever two functions meet it, their
    composition is [removeComments].  No [//] is left in the result.
    The sample becomes [ {"a":1} ], which is [{"a":1}] up to blanks, and
    stripping that again changes nothing; in general a second
    application changes nothing whenever the first result holds no
    [/*]. *)
Theorem removeComments_strips :
  strips_blocks without_blocks
  /\ strips_lines without_lines
  /\ (forall f g, strips_blocks f -> strips_lines g ->
        forall s, removeComments (StrVal s) = g (f s))
  /\ (forall s, subseq (removeComments (StrVal s)) s)
  /\ (forall s, Str.is_substring "//" (removeComments (StrVal s)) = false)
  /\ removeComments (StrVal Demo.sample) = Str.unquote " {'a':1} "
  /\ squeeze (removeComments (StrVal Demo.sample)) = Str.unquote "{'a':1}"
  /\ removeComments (StrVal (removeComments (StrVal Demo.sample)))
     = removeComments (StrVal Demo.sample)
  /\ (forall s,
        Str.is_substring "/*" (removeComments (StrVal s)) = false ->
        removeComments (StrVal (removeComments (StrVal s)))
        = removeComments (StrVal s)).
Proof.
  split; [exact without_blocks_spec |].
  split; [exact without_lines_spec |].
  split.
  { intros f g Hf Hg s. rewrite (strips_blocks_unique f Hf s).
    rewrite (strips_lines_unique g Hg). reflexivity. }
  split; [exact removeComments_subseq |].
  split; [exact removeComments_no_line_comment |].
  split; [vm_compute; reflexivity |].
  split; [vm_compute; reflexivity |].
  split; [vm_compute; reflexivity |].
  exact removeComments_again.
Qed.

Lemma removeComments_strips_witness :
  without_blocks ("x " +:+ "/*" +:+ " a *" +:+ "*/" +:+ " y /* z")
    = "x " +:+ without_blocks " y /* z"
  /\ without_lines ("u " +:+ "//" +:+ " c" +:+ String "010" "v // w")
     = "u " +:+ String "010" (without_lines "v // w")
  /\ removeComments (StrVal "x /* a **/ y // c")
     = without_lines (without_blocks "x /* a **/ y // c")
  /\ removeComments (StrVal (removeComments (StrVal "x // y /* z")))
     = removeComments (StrVal "x // y /* z").
Proof.
  destruct removeComments_strips
    as (Hblocks & Hlines & Hboth & _ & _ & _ & _ & _ & Hagain).
  split; [| split; [| split]].
  - destruct Hblocks as (_ & _ & Hcomment).
    apply (Hcomment "x " " a *" " y /* z"); reflexivity.
  - destruct Hlines as (_ & _ & Hcomment).
    apply (Hcomment "u " " c" "010"%char "v // w");
      [reflexivity | reflexivity | split; reflexivity | reflexivity].
  - apply (Hboth without_blocks without_lines Hblocks Hlines).
  - apply Hagain. vm_compute. reflexivity.
Defined.

(** C8 as worded fails: [removeComments] is not idempotent.  Stripping
    [//* x */* y */] removes the block [/* x */] and leaves [/* y */],
    which a second application removes. *)
Lemma removeComments_not_idempotent :
  removeComments (StrVal (removeComments (StrVal "//* x */* y */")))
  <> removeComments (StrVal "//* x */* y */").
Proof. vm_compute. discriminate. Qed.

(** ** findFile and findConfig *)

Lemma split_not_nil sep s : Str.split sep s <> [].
Proof.
  destruct s as [| a s]; simpl; [discriminate |].
  destruct (Ascii.eqb a sep); [discriminate |].
  destruct (Str.split sep s); discriminate.
Qed.

Lemma split_app sep a b :
  Str.split sep (a +:+ String sep b) = Str.split sep a ++ Str.split sep b.
Proof.
  induction a as [| c a IH]; simpl.
  - rewrite Ascii.eqb_refl. reflexivity.
  - destruct (Ascii.eqb c sep); [rewrite IH; reflexivity |].
    rewrite IH. pose proof (split_not_nil sep a) as Hne.
    destruct (Str.split sep a); [congruence | reflexivity].
Qed.

Lemma split_slash_free sep s : Forall (fun p => Str.has_char sep p = false) (Str.split sep s).
Proof.
  induction s as [| a s IH]; simpl.
  - repeat constructor.
  - destruct (Ascii.eqb a sep) eqn:Ha; [constructor; [reflexivity | exact IH] |].
    destruct (Str.split sep s) as [| h t]; [repeat constructor; simpl; rewrite Ha; reflexivity |].
    inversion IH; subst. constructor; [simpl; rewrite Ha; assumption | assumption].
Qed.

Lemma split_segment sep s :
  Str.has_char sep s = false -> Str.split sep s = [s].
Proof.
  induction s as [| a s IH]; simpl; [reflexivity |].
  destruct (Ascii.eqb a sep); simpl; [discriminate |].
  intros H. rewrite (IH H). reflexivity.
Qed.

Lemma parts_app a b : Path.parts (a +:+ String Str.slash b) = Path.parts a ++ Path.parts b.
Proof. unfold Path.parts. rewrite split_app. apply List.filter_app. Qed.

Lemma parts_segments s : Forall segment (Path.parts s).
Proof.
  unfold Path.parts.
  pose proof (split_slash_free Str.slash s) as H.
  induction H as [| p l Hp Hl IH]; simpl; [constructor |].
  destruct (Path.nonempty p) eqn:Hn; [| exact IH].
  constructor; [split; assumption | exact IH].
Qed.

Lemma parts_join ks : Forall segment ks -> Path.parts (Str.join "/" ks) = ks.
Proof.
  induction 1 as [| k ks [Hn Hs] Hks IH]; [reflexivity |].
  destruct ks as [| k' ks'].
  - simpl. unfold Path.parts. rewrite (split_segment _ _ Hs). simpl. rewrite Hn. reflexivity.
  - change (Str.join "/" (k :: k' :: ks')) with (k +:+ String Str.slash (Str.join "/" (k' :: ks'))).
    rewrite parts_app, IH. unfold Path.parts. rewrite (split_segment _ _ Hs).
    simpl. rewrite Hn. reflexivity.
Qed.

Lemma parts_render ks : Forall segment ks -> Path.parts (render ks) = ks.
Proof.
  intros H. unfold render.
  change ("/" +:+ Str.join "/" ks) with (EmptyString +:+ String Str.slash (Str.join "/" ks)).
  rewrite parts_app. simpl. apply parts_join. exact H.
Qed.

Lemma plain_segment ks : Forall plain ks -> Forall segment ks.
Proof. intros H. eapply Forall_impl; [exact H |]. intros k [Hk _]. exact Hk. Qed.

Lemma loop_kept P ps :
  Forall P ps -> Forall P (fst (Path.normalizeArray_loop ps)).
Proof.
  induction 1 as [| p ps Hp Hps IH]; simpl; [constructor |].
  destruct (Path.normalizeArray_loop ps) as [kept up]. simpl in IH.
  destruct (String.eqb p "."); [exact IH |].
  destruct (String.eqb p ".."); [exact IH |].
  destruct up; simpl; [constructor |]; assumption.
Qed.

Lemma loop_no_dots ps :
  Forall (fun p => String.eqb p "." = false /\ String.eqb p ".." = false)
         (fst (Path.normalizeArray_loop ps)).
Proof.
  induction ps as [| p ps IH]; simpl; [constructor |].
  destruct (Path.normalizeArray_loop ps) as [kept up]. simpl in IH.
  destruct (String.eqb p ".") eqn:H1; [exact IH |].
  destruct (String.eqb p "..") eqn:H2; [exact IH |].
  destruct up; simpl; [constructor; [split |] |]; assumption.
Qed.

Lemma normalizeArray_plain ps :
  Forall segment ps -> Forall plain (Path.normalizeArray ps false).
Proof.
  intros H. unfold Path.normalizeArray.
  pose proof (loop_kept segment ps H) as Hk. pose proof (loop_no_dots ps) as Hd.
  destruct (Path.normalizeArray_loop ps) as [kept up]. simpl in *.
  clear H. induction Hk as [| k ks Hk Hks IH]; [constructor |].
  inversion Hd as [| ? ? [H1 H2] Hrest]; subst.
  constructor; [repeat split; solve [apply Hk | assumption] | apply IH; assumption].
Qed.

(** On plain segments followed by [up] times [..], the loop drops the
    last [up] segments. *)
Lemma loop_plain_then_up ks : forall up,
  Forall plain ks ->
  Path.normalizeArray_loop (ks ++ repeat ".." up)
  = (firstn (List.length ks - up) ks, up - List.length ks).
Proof.
  induction ks as [| k ks IH]; intros up Hks.
  - simpl. induction up as [| up IHup]; [reflexivity |].
    simpl. rewrite IHup. simpl. f_equal. lia.
  - inversion Hks as [| ? ? (_ & H1 & H2) Hrest]; subst.
    cbn [app Path.normalizeArray_loop]. rewrite (IH up Hrest), H1, H2.
    destruct (up - List.length ks) as [| d] eqn:Hd.
    + replace (List.length (k :: ks) - up) with (S (List.length ks - up))
        by (simpl; lia).
      simpl. f_equal. lia.
    + replace (List.length ks - up) with 0 by lia.
      replace (List.length (k :: ks) - up) with 0 by (simpl; lia).
      simpl. f_equal. simpl. lia.
Qed.

Lemma firstn_plain n ks : Forall plain ks -> Forall plain (firstn n ks).
Proof.
  intros H. revert n. induction H as [| k ks Hk Hks IH]; intros [| n]; simpl;
    constructor; auto.
Qed.

Lemma render_absolute ks : Path.isAbsolute (render ks) = true.
Proof. reflexivity. Qed.

(** [path.resolve(dir, "../../")] for an absolute [dir]. *)
Lemma resolve_up_absolute cwd dir :
  Path.isAbsolute dir = true ->
  Path.resolve cwd [dir; "../../"]
  = render (Path.normalizeArray (Path.parts dir ++ [".."; ".."]) false).
Proof.
  intros Habs. unfold Path.resolve. cbn [rev app Path.resolve_loop Str.is_empty].
  change (Path.isAbsolute "../../") with false. cbv iota.
  assert (Hne : Str.is_empty dir = false) by (destruct dir; [discriminate | reflexivity]).
  rewrite Hne, Habs.
  change (dir +:+ "/" +:+ "../../" +:+ "/" +:+ EmptyString)
    with (dir +:+ String Str.slash "../..//").
  rewrite parts_app. change (Path.parts "../..//") with [".."; ".."].
  reflexivity.
Qed.

(** [path.resolve(dir, "../../")] for a relative, non-empty [dir] under
    an absolute working directory. *)
Lemma resolve_up_relative cwd dir :
  Path.isAbsolute cwd = true -> Path.isAbsolute dir = false ->
  Str.is_empty dir = false ->
  Path.resolve cwd [dir; "../../"]
  = render (Path.normalizeArray
              (Path.parts cwd ++ Path.parts dir ++ [".."; ".."]) false).
Proof.
  intros Hcwd Hrel Hne. unfold Path.resolve.
  cbn [rev app Path.resolve_loop Str.is_empty].
  change (Path.isAbsolute "../../") with false. cbv iota.
  assert (Hc : Str.is_empty cwd = false) by (destruct cwd; [discriminate | reflexivity]).
  rewrite Hne, Hrel, Hc, Hcwd.
  change (cwd +:+ "/" +:+ dir +:+ "/" +:+ "../../" +:+ "/" +:+ EmptyString)
    with (cwd +:+ String Str.slash (dir +:+ String Str.slash "../..//")).
  rewrite !parts_app. change (Path.parts "../..//") with [".."; ".."].
  reflexivity.
Qed.

Lemma resolve_up_render cwd ks :
  Forall plain ks -> Path.resolve cwd [render ks; "../../"] = render (up2 ks).
Proof.
  intros Hks. rewrite resolve_up_absolute by reflexivity.
  rewrite (parts_render ks (plain_segment ks Hks)).
  unfold Path.normalizeArray. change [".."; ".."] with (repeat ".." 2).
  rewrite (loop_plain_then_up ks 2 Hks). reflexivity.
Qed.

Lemma up2_plain ks : Forall plain ks -> Forall plain (up2 ks).
Proof. apply firstn_plain. Qed.

Lemma up2_length ks : ks <> [] -> List.length (up2 ks) < List.length ks.
Proof.
  intros Hne. unfold up2. rewrite length_firstn. destruct ks; [congruence | simpl; lia].
Qed.

Lemma findFile_more_fuel env name n : forall m dir r,
  n <= m -> findFile n env name dir = Ret r -> findFile m env name dir = Ret r.
Proof.
  induction n as [| n IH]; intros m dir r Hle; [discriminate |].
  destruct m as [| m]; [lia |]. cbn [findFile].
  destruct (exists_ env _); [trivial |].
  destruct (String.eqb _ _); [trivial |].
  apply IH. lia.
Qed.

(** From a rendered directory the search returns within one step per
    segment. *)
Lemma findFile_from_render env name n : forall ks,
  Forall plain ks -> List.length ks <= n ->
  exists r, findFile (S n) env name (Some (render ks)) = Ret r.
Proof.
  induction n as [| n IH]; intros ks Hks Hlen; cbn [findFile];
    change (start_dir env (Some (render ks))) with (render ks);
    (destruct (exists_ env _); [eauto |]);
    rewrite (resolve_up_render _ ks Hks).
  - destruct ks; [| simpl in Hlen; lia]. change (String.eqb (render []) (render (up2 []))) with true.
    eauto.
  - destruct (String.eqb (render ks) (render (up2 ks))) eqn:Heq; [eauto |].
    destruct ks as [| k ks]; [discriminate |].
    apply IH; [apply up2_plain; exact Hks |].
    pose proof (up2_length (k :: ks)) as Hlt. simpl in Hlen, Hlt |- *.
    assert (k :: ks <> []) by discriminate. specialize (Hlt H). lia.
Qed.

(** When no file is found anywhere the answer is [null]. *)
Lemma findFile_from_render_none env name n : forall ks,
  (forall d, Path.isAbsolute d = true ->
             exists_ env (Path.normalize (Path.join [d; name])) = false) ->
  Forall plain ks -> List.length ks <= n ->
  findFile (S n) env name (Some (render ks)) = Ret None.
Proof.
  intros ks Hnone. revert ks.
  induction n as [| n IH]; intros ks Hks Hlen; cbn [findFile];
    change (start_dir env (Some (render ks))) with (render ks);
    rewrite (Hnone (render ks) eq_refl);
    rewrite (resolve_up_render _ ks Hks).
  - destruct ks; [| simpl in Hlen; lia]. reflexivity.
  - destruct (String.eqb (render ks) (render (up2 ks))) eqn:Heq; [reflexivity |].
    destruct ks as [| k ks]; [discriminate |].
    apply IH; [apply up2_plain; exact Hks |].
    pose proof (up2_length (k :: ks)) as Hlt. simpl in Hlen, Hlt |- *.
    assert (k :: ks <> []) by discriminate. specialize (Hlt H). lia.
Qed.

Section Search.

Variable env : Env.
Hypothesis cwd_absolute : Path.isAbsolute (cwd env) = true.

Lemma start_dir_not_empty dir : Str.is_empty (start_dir env dir) = false.
Proof.
  unfold start_dir. destruct dir as [d |].
  - destruct (Str.is_empty d) eqn:Hd; [| exact Hd].
    destruct (cwd env); [discriminate | reflexivity].
  - destruct (cwd env); [discriminate | reflexivity].
Qed.

(** The first computed parent is a rendered list of plain segments. *)
Lemma first_parent dir :
  exists ks, Forall plain ks /\
             Path.resolve (cwd env) [start_dir env dir; "../../"] = render ks.
Proof.
  pose proof (start_dir_not_empty dir) as Hne.
  destruct (Path.isAbsolute (start_dir env dir)) eqn:Habs.
  - eexists. split; [| apply resolve_up_absolute; exact Habs].
    apply normalizeArray_plain, Forall_app. split; [apply parts_segments |].
    repeat constructor.
  - eexists. split; [| apply resolve_up_relative; assumption].
    apply normalizeArray_plain, Forall_app. split; [apply parts_segments |].
    apply Forall_app. split; [apply parts_segments |]. repeat constructor.
Qed.

Lemma search_depth_eq dir ks :
  Forall plain ks ->
  Path.resolve (cwd env) [start_dir env dir; "../../"] = render ks ->
  search_depth env dir = 2 + List.length ks.
Proof.
  intros Hks Hres. unfold search_depth.
  rewrite Hres, (parts_render ks (plain_segment ks Hks)). reflexivity.
Qed.

Lemma findFile_returns name dir :
  exists r, forall fuel,
    search_depth env dir <= fuel -> findFile fuel env name dir = Ret r.
Proof.
  destruct (first_parent dir) as (ks & Hks & Hres).
  rewrite (search_depth_eq dir ks Hks Hres).
  assert (Hone : exists r, findFile (2 + List.length ks) env name dir = Ret r).
  { cbn [Nat.add findFile]. rewrite Hres.
    destruct (exists_ env _); [eauto |].
    destruct (String.eqb _ _); [eauto |].
    apply findFile_from_render; [exact Hks | lia]. }
  destruct Hone as [r Hr]. exists r. intros fuel Hfuel.
  eapply findFile_more_fuel; [exact Hfuel | exact Hr].
Qed.

Lemma findFile_none name dir :
  (forall d, Path.isAbsolute d = true ->
             exists_ env (Path.normalize (Path.join [d; name])) = false) ->
  Path.isAbsolute (start_dir env dir) = true ->
  forall fuel, search_depth env dir <= fuel -> findFile fuel env name dir = Ret None.
Proof.
  intros Hnone Hstart fuel Hfuel.
  destruct (first_parent dir) as (ks & Hks & Hres).
  rewrite (search_depth_eq dir ks Hks Hres) in Hfuel.
  eapply findFile_more_fuel; [exact Hfuel |].
  cbn [Nat.add findFile]. rewrite Hres.
  rewrite (Hnone _ Hstart).
  destruct (String.eqb _ _); [reflexivity |].
  apply findFile_from_render_none; [exact Hnone | exact Hks | lia].
Qed.

End Search.

(** C6: under an absolute working directory the upward search returns
    for every name and every starting directory, given fuel for one step
    per path segment; at the root the computed parent is the root itself
    and the search stops with [null]; and when the file exists at no
    level and not in the home directory, [findConfig] returns [null]. *)
Theorem findFile_terminates (env : Env) :
  Path.isAbsolute (cwd env) = true ->
  (forall name dir, exists r, forall fuel,
      search_depth env dir <= fuel -> findFile fuel env name dir = Ret r)
  /\ (forall name fuel,
        exists_ env (Path.normalize (Path.join ["/"; name])) = false ->
        findFile (S fuel) env name (Some "/") = Ret None)
  /\ ((forall d, Path.isAbsolute d = true ->
                 exists_ env (Path.normalize (Path.join [d; ".jshintrc"])) = false) ->
      exists_ env (Path.normalize (Path.join [HOME env; ".jshintrc"])) = false ->
      forall fuel, search_depth env None <= fuel -> findConfig fuel env = Ret None).
Proof.
  intros Hcwd. split; [| split].
  - intros name dir. apply findFile_returns. exact Hcwd.
  - intros name fuel Hroot. cbn [findFile start_dir Str.is_empty]. rewrite Hroot.
    reflexivity.
  - intros Hnone Hhome fuel Hfuel. unfold findConfig.
    rewrite (findFile_none env Hcwd ".jshintrc" None Hnone Hcwd fuel Hfuel).
    simpl. rewrite Hhome. reflexivity.
Qed.

Lemma findFile_terminates_witness :
  findConfig (search_depth Demo.bare None) Demo.bare = Ret None
  /\ search_depth Demo.bare None = 5.
Proof.
  split; [| reflexivity].
  destruct (findFile_terminates Demo.bare eq_refl) as (_ & _ & Hnull).
  apply Hnull; [intros d _; reflexivity | reflexivity | lia].
Defined.

Lemma up2_app ks k1 k2 : up2 (ks ++ [k1; k2]) = ks.
Proof.
  unfold up2. rewrite length_app. simpl.
  replace (List.length ks + 2 - 2) with (List.length ks + 0) by lia.
  rewrite firstn_app_2. simpl. apply app_nil_r.
Qed.

Lemma render_inj ks ks' :
  Forall plain ks -> Forall plain ks' -> render ks = render ks' -> ks = ks'.
Proof.
  intros Hks Hks' Heq.
  rewrite <- (parts_render ks (plain_segment ks Hks)).
  rewrite <- (parts_render ks' (plain_segment ks' Hks')).
  rewrite Heq. reflexivity.
Qed.

(** One step of the search goes two levels up: from [/.../k1/k2] the
    next directory examined is [/...], not [/.../k1]. *)
Lemma findFile_step_two_up env name n ks k1 k2 :
  Forall plain (ks ++ [k1; k2]) ->
  exists_ env (Path.normalize (Path.join [render (ks ++ [k1; k2]); name])) = false ->
  findFile (S n) env name (Some (render (ks ++ [k1; k2])))
  = findFile n env name (Some (render ks)).
Proof.
  intros Hall Habsent. cbn [findFile].
  change (start_dir env (Some (render (ks ++ [k1; k2])))) with (render (ks ++ [k1; k2])).
  rewrite Habsent, (resolve_up_render _ _ Hall), up2_app.
  destruct (String.eqb_spec (render (ks ++ [k1; k2])) (render ks)) as [Heq | _];
    [| reflexivity].
  apply render_inj in Heq; [| exact Hall | apply Forall_app in Hall; apply Hall].
  apply (f_equal (@List.length string)) in Heq. rewrite length_app in Heq.
  simpl in Heq. lia.
Qed.

(** C1 on the code: with the working directory [/a/b] and the file
    present in [/a], the search looks in [/a/b], computes [/] as the next
    directory, looks there and gives up; [/a] is never checked.  In
    general a step from [/.../k1/k2] continues in [/...]. *)
Theorem findFile_skips_parent :
  exists_ Demo.nested "/a/.jshintrc" = true
  /\ Path.resolve (cwd Demo.nested) ["/a/b"; "../../"] = "/"
  /\ (forall fuel, findFile (2 + fuel) Demo.nested ".jshintrc" (Some "/a/b") = Ret None)
  /\ (forall fuel, findConfig (2 + fuel) Demo.nested = Ret None)
  /\ (forall env name n ks k1 k2,
        Forall plain (ks ++ [k1; k2]) ->
        exists_ env (Path.normalize (Path.join [render (ks ++ [k1; k2]); name])) = false ->
        findFile (S n) env name (Some (render (ks ++ [k1; k2])))
        = findFile n env name (Some (render ks))).
Proof.
  split; [reflexivity |]. split; [reflexivity |].
  split; [intros fuel; reflexivity |].
  split; [intros fuel; reflexivity |].
  exact findFile_step_two_up.
Qed.

Lemma findFile_skips_parent_witness :
  findFile 3 Demo.nested ".jshintrc" (Some "/a/b/c") = findFile 2 Demo.nested ".jshintrc" (Some "/a")
  /\ findFile 2 Demo.nested ".jshintrc" (Some "/a") = Ret (Some "/a/.jshintrc").
Proof.
  destruct findFile_skips_parent as (_ & _ & _ & _ & Hstep).
  split; [| reflexivity].
  apply (Hstep Demo.nested ".jshintrc" 2 ["a"] "b" "c").
  - repeat constructor.
  - reflexivity.
Defined.

(** * Further properties *)

(** ** path.resolve under an absolute working directory *)

Lemma absolute_not_empty p : Path.isAbsolute p = true -> Str.is_empty p = false.
Proof. destruct p; [discriminate | reflexivity]. Qed.

Lemma resolve_loop_absolute cwd l : forall acc,
  Path.isAbsolute cwd = true ->
  snd (Path.resolve_loop (l ++ [cwd]) acc) = true.
Proof.
  induction l as [| p l IH]; intros acc Hcwd; cbn [app Path.resolve_loop].
  - rewrite (absolute_not_empty cwd Hcwd), Hcwd. reflexivity.
  - destruct (Str.is_empty p); [apply IH; exact Hcwd |].
    destruct (Path.isAbsolute p); [reflexivity | apply IH; exact Hcwd].
Qed.

(** Whatever the arguments, the result is an absolute, normalized path. *)
Lemma resolve_resolved cwd args :
  Path.isAbsolute cwd = true -> resolved (Path.resolve cwd args).
Proof.
  intros Hcwd. unfold Path.resolve.
  pose proof (resolve_loop_absolute cwd (rev args) EmptyString Hcwd) as Habs.
  destruct (Path.resolve_loop (rev args ++ [cwd]) EmptyString) as [rp abs].
  simpl in Habs. subst abs. cbn [negb].
  exists (Path.normalizeArray (Path.parts rp) false). split.
  - apply normalizeArray_plain, parts_segments.
  - reflexivity.
Qed.

(** ** findFile: which directories are examined *)

Lemma render_up2_differs ks : Forall plain ks -> ks <> [] ->
  String.eqb (render ks) (render (up2 ks)) = false.
Proof.
  intros Hks Hne. apply String.eqb_neq. intros Heq.
  apply render_inj in Heq; [| exact Hks | apply up2_plain; exact Hks].
  pose proof (up2_length ks Hne) as Hlt. rewrite <- Heq in Hlt. lia.
Qed.

Lemma findFile_chain_fuel env name n : forall ks,
  Forall plain ks -> List.length ks <= n ->
  findFile (S n) env name (Some (render ks))
  = Ret (List.find (exists_ env) (List.map (candidate name) (search_chain n ks))).
Proof.
  induction n as [| n IH]; intros ks Hks Hlen; cbn [findFile];
    change (start_dir env (Some (render ks))) with (render ks);
    rewrite (resolve_up_render _ ks Hks);
    fold (candidate name (render ks)).
  - destruct ks; [| simpl in Hlen; lia]. cbn [search_chain List.map List.find].
    destruct (exists_ env (candidate name (render []))); reflexivity.
  - destruct ks as [| k ks].
    + cbn [search_chain List.map List.find].
      destruct (exists_ env (candidate name (render []))); reflexivity.
    + cbn [search_chain List.map List.find].
      destruct (exists_ env (candidate name (render (k :: ks)))); [reflexivity |].
      rewrite (render_up2_differs (k :: ks) Hks) by discriminate.
      apply IH; [apply up2_plain; exact Hks |].
      pose proof (up2_length (k :: ks)) as Hlt. simpl in Hlen, Hlt |- *.
      assert (k :: ks <> []) by discriminate. specialize (Hlt H). lia.
Qed.

(** X1: from the directory [/k1/.../kn] the search returns the first
    existing candidate among the directories two levels apart, [null] if
    there is none, for every amount of fuel above [n]. *)
Theorem findFile_first_in_chain (env : Env) (name : string) (ks : list string)
    (fuel : nat) :
  Forall plain ks -> List.length ks < fuel ->
  findFile fuel env name (Some (render ks))
  = Ret (List.find (exists_ env)
           (List.map (candidate name) (search_chain (List.length ks) ks))).
Proof.
  intros Hks Hfuel.
  apply (findFile_more_fuel env name (S (List.length ks))); [lia |].
  apply findFile_chain_fuel; [exact Hks | lia].
Qed.

Lemma findFile_first_in_chain_witness :
  search_chain 3 ["a"; "b"; "c"] = ["/a/b/c"; "/a"; "/"]
  /\ findFile 4 Demo.nested ".jshintrc" (Some "/a/b/c") = Ret (Some "/a/.jshintrc").
Proof.
  split; [reflexivity |].
  assert (Hks : Forall plain ["a"; "b"; "c"]) by (repeat constructor).
  assert (Hfuel : List.length ["a"; "b"; "c"] < 4) by (simpl; lia).
  exact (findFile_first_in_chain Demo.nested ".jshintrc" ["a"; "b"; "c"] 4 Hks Hfuel).
Defined.

Lemma append_not_empty a b : Str.is_empty a = false -> Str.is_empty (a +:+ b) = false.
Proof. destruct a; [discriminate | reflexivity]. Qed.

Lemma normalize_not_empty p : Str.is_empty (Path.normalize p) = false.
Proof.
  unfold Path.normalize. destruct (Path.isAbsolute p); [reflexivity |].
  cbn [negb andb].
  destruct (Str.join "/" (Path.normalizeArray (Path.parts p) true)) as [| c s];
    cbn [Str.is_empty Path.nonempty negb andb];
    destruct (Str.ends_with_char Str.slash p); reflexivity.
Qed.

Lemma findFile_sound (fuel : nat) (env : Env) (name : string)
    (dir : option string) (f : string) :
  findFile fuel env name dir = Ret (Some f) ->
  exists_ env f = true /\ exists d, f = candidate name d.
Proof.
  revert dir. induction fuel as [| n IH]; intros dir; [discriminate |].
  cbn [findFile].
  destruct (exists_ env (Path.normalize (Path.join [start_dir env dir; name]))) eqn:Hex.
  - intros [= <-]. split; [exact Hex | eexists; reflexivity].
  - destruct (String.eqb _ _); [discriminate | apply IH].
Qed.

(** X2: whatever directory the search starts in, a file name it returns
    is the candidate of some directory, exists and is not the empty
    string (so that testing the result for truth is testing it for
    [null]). *)
Theorem findFile_returns_existing (fuel : nat) (env : Env) (name : string)
    (dir : option string) (f : string) :
  findFile fuel env name dir = Ret (Some f) ->
  exists_ env f = true
  /\ (exists d, f = candidate name d)
  /\ Str.is_empty f = false.
Proof.
  intros Hfind. destruct (findFile_sound fuel env name dir f Hfind) as [Hex [d Hd]].
  split; [exact Hex |]. split; [exists d; exact Hd |].
  rewrite Hd. unfold candidate. apply normalize_not_empty.
Qed.

Lemma findFile_returns_existing_witness :
  exists_ Demo.nested "/a/.jshintrc" = true
  /\ (exists d, "/a/.jshintrc" = candidate ".jshintrc" d)
  /\ Str.is_empty "/a/.jshintrc" = false.
Proof.
  apply (findFile_returns_existing 3 Demo.nested ".jshintrc" (Some "/a/b/c")).
  reflexivity.
Defined.

(** ** findConfig *)

(** X3: the project's file wins over the one in the home directory, the
    home file is the fallback, and a path [findConfig] returns exists. *)
Theorem findConfig_project_then_home (fuel : nat) (env : Env)
    (proj : option string) :
  findFile fuel env ".jshintrc" None = Ret proj ->
  findConfig fuel env =
    Ret (match proj with
         | Some p => Some p
         | None =>
             if exists_ env (candidate ".jshintrc" (HOME env))
             then Some (candidate ".jshintrc" (HOME env)) else None
         end)
  /\ (forall p, findConfig fuel env = Ret (Some p) -> exists_ env p = true).
Proof.
  intros Hproj.
  assert (Heq : findConfig fuel env =
    Ret (match proj with
         | Some p => Some p
         | None =>
             if exists_ env (candidate ".jshintrc" (HOME env))
             then Some (candidate ".jshintrc" (HOME env)) else None
         end)).
  { unfold findConfig. rewrite Hproj. unfold candidate. simpl.
    destruct proj; [reflexivity |].
    destruct (exists_ env _); reflexivity. }
  split; [exact Heq |].
  intros p. rewrite Heq. destruct proj as [q |].
  - intros [= <-]. apply (findFile_sound _ _ _ _ _ Hproj).
  - destruct (exists_ env (candidate ".jshintrc" (HOME env))) eqn:Hhome;
      [intros [= <-]; exact Hhome | discriminate].
Qed.

Lemma findConfig_project_then_home_witness :
  findConfig 2 Demo2.project = Ret (Some "/w/.jshintrc")
  /\ (forall p, findConfig 2 Demo2.project = Ret (Some p) ->
                exists_ Demo2.project p = true).
Proof.
  apply (findConfig_project_then_home 2 Demo2.project (Some "/w/.jshintrc")).
  reflexivity.
Defined.

(** ** isIgnored on a list put together from two *)

(** X4: the patterns are tried in order and the first answer counts:
    [isIgnored] on [P ++ Q] is [isIgnored] on [P] and, when that answers
    [false], [isIgnored] on [Q]; patterns added behind never change a
    [true] (or an exception) of the ones before. *)
Theorem isIgnored_app (env : Env) (fp : string) (P Q : list string) :
  isIgnored env fp (P ++ Q) =
  do b <- isIgnored env fp P; if b then Ret true else isIgnored env fp Q.
Proof.
  unfold isIgnored. induction P as [| ip P IH]; [reflexivity |].
  cbn [app some]. destruct (ignore_test env fp ip) as [[|] | | |]; simpl;
    [reflexivity | exact IH | reflexivity | reflexivity | reflexivity].
Qed.

(** ** isIgnored on absolute patterns *)

Lemma join_not_empty k ks :
  Path.nonempty k = true -> Str.is_empty (Str.join "/" (k :: ks)) = false.
Proof.
  intros Hk. destruct k as [| c k]; [discriminate |].
  destruct ks; reflexivity.
Qed.

Lemma bare_name_below_root ip : below_root ip -> bare_name ip = false.
Proof.
  intros (ks & Hks & Hne & ->). destruct ks as [| k ks]; [congruence |].
  inversion Hks as [| ? ? [[Hk _] _] _]; subst.
  pose proof (join_not_empty k ks Hk) as Hj. unfold render.
  change ("/" +:+ Str.join "/" (k :: ks)) with (String "/" (Str.join "/" (k :: ks))).
  destruct (Str.join "/" (k :: ks)); [discriminate | reflexivity].
Qed.

Lemma ignore_test_below_root env fp ip :
  below_root ip ->
  ignore_test env fp ip =
  Ret (minimatch env fp ip {| nocase := true |}
       || String.eqb (Path.resolve (cwd env) [fp]) ip).
Proof.
  intros Hip. unfold ignore_test. rewrite (bare_name_below_root ip Hip).
  destruct (minimatch env fp ip _); [reflexivity |].
  destruct (String.eqb _ ip); [reflexivity |].
  rewrite andb_false_r. reflexivity.
Qed.

Lemma isIgnored_below_root env fp patterns :
  Forall below_root patterns ->
  isIgnored env fp patterns = Ret (glob_or_equal env fp patterns).
Proof.
  unfold isIgnored, glob_or_equal.
  induction 1 as [| ip ps Hip Hps IH]; [reflexivity |].
  cbn [some List.existsb]. rewrite (ignore_test_below_root env fp ip Hip). simpl.
  destruct (minimatch env fp ip _ || String.eqb _ ip); [reflexivity | exact IH].
Qed.

Lemma resolved_below_root p : resolved p -> p <> "/" -> below_root p.
Proof.
  intros (ks & Hks & ->) Hne. exists ks. repeat split; [exact Hks |].
  intros ->. apply Hne. reflexivity.
Qed.

(** ** loadIgnores *)

Lemma loadIgnores_found fuel (h : Host) f text :
  findFile fuel h ".jshintignore" None = Ret (Some f) ->
  cat h f = CatText text ->
  loadIgnores fuel h =
  Ret (Some (List.map
               (fun line => Path.resolve (cwd h) [Dir.dirname f; trim h line])
               (List.filter (fun line => negb (Str.is_empty (trim h line)))
                            (Str.split "010" text)))).
Proof.
  intros Hfind Hcat. unfold loadIgnores. rewrite Hfind. simpl.
  destruct (findFile_sound _ _ _ _ _ Hfind) as (_ & d & Hd).
  assert (Hne : Str.is_empty f = false)
    by (rewrite Hd; apply normalize_not_empty).
  unfold shjs_cat. rewrite Hne, Hcat. reflexivity.
Qed.

(** What a list returned by [loadIgnores] is made of. *)
Lemma loadIgnores_inv (fuel : nat) (h : Host) (patterns : list string) :
  loadIgnores fuel h = Ret (Some patterns) ->
  exists f text,
    findFile fuel h ".jshintignore" None = Ret (Some f)
    /\ cat h f = CatText text
    /\ patterns =
       List.map (fun line => Path.resolve (cwd h) [Dir.dirname f; trim h line])
                (List.filter (fun line => negb (Str.is_empty (trim h line)))
                             (Str.split "010" text)).
Proof.
  unfold loadIgnores.
  destruct (findFile fuel h ".jshintignore" None) as [[f |] | | |] eqn:Hfind;
    simpl; try discriminate.
  destruct (Str.is_empty f); [discriminate |].
  unfold shjs_cat.
  destruct (cat h f) as [text | | | code] eqn:Hcat; cbn [obind]; try discriminate.
  intros [= <-]. exists f, text. split; [reflexivity |]. split; [exact Hcat |].
  reflexivity.
Qed.

Lemma map_resolve_resolved (cwd : string) (g : string -> list string)
    (lines : list string) :
  Path.isAbsolute cwd = true ->
  Forall resolved (List.map (fun line => Path.resolve cwd (g line)) lines).
Proof.
  intros Hcwd. apply List.Forall_forall. intros p Hp.
  apply in_map_iff in Hp as (line & <- & _). apply resolve_resolved. exact Hcwd.
Qed.

(** X5: under an absolute working directory every pattern [loadIgnores]
    returns is an absolute, normalized path; there is at most one for
    each line of the file. *)
Theorem loadIgnores_patterns_resolved (fuel : nat) (h : Host)
    (patterns : list string) :
  Path.isAbsolute (cwd h) = true ->
  loadIgnores fuel h = Ret (Some patterns) ->
  Forall resolved patterns
  /\ exists f text,
       findFile fuel h ".jshintignore" None = Ret (Some f)
       /\ cat h f = CatText text
       /\ List.length patterns <= List.length (Str.split "010" text).
Proof.
  intros Hcwd Hload.
  destruct (loadIgnores_inv fuel h patterns Hload) as (f & text & Hfind & Hcat & ->).
  split.
  - apply (map_resolve_resolved (cwd h)
             (fun line => [Dir.dirname f; trim h line])). exact Hcwd.
  - exists f, text. split; [exact Hfind |]. split; [exact Hcat |].
    rewrite List.length_map. apply List.filter_length_le.
Qed.

(** X6: with the patterns of an ignore file, none of them the root, the
    test never raises and the directory clause never applies: a path is
    ignored exactly when it matches a pattern as a glob or its absolute
    form is a pattern. *)
Theorem isIgnored_after_loadIgnores (fuel : nat) (h : Host)
    (patterns : list string) (fp : string) :
  Path.isAbsolute (cwd h) = true ->
  loadIgnores fuel h = Ret (Some patterns) ->
  ~ In "/" patterns ->
  isIgnored h fp patterns = Ret (glob_or_equal h fp patterns).
Proof.
  intros Hcwd Hload Hroot.
  destruct (loadIgnores_inv fuel h patterns Hload) as (f & text & _ & _ & Heq).
  assert (Hres : Forall resolved patterns).
  { rewrite Heq. apply (map_resolve_resolved (cwd h)
                          (fun line => [Dir.dirname f; trim h line])). exact Hcwd. }
  apply isIgnored_below_root. apply List.Forall_forall. intros p Hp.
  apply resolved_below_root.
  - rewrite List.Forall_forall in Hres. apply Hres, Hp.
  - intros ->. exact (Hroot Hp).
Qed.

(** ** Where the patterns of an ignore file point *)

Lemma append_assoc (x y z : string) : x +:+ (y +:+ z) = (x +:+ y) +:+ z.
Proof.
  induction x as [| c x IH]; [reflexivity |].
  change (String c (x +:+ (y +:+ z)) = String c ((x +:+ y) +:+ z)).
  rewrite IH. reflexivity.
Qed.

Lemma join_snoc ks k :
  Str.join "/" (ks ++ [k]) =
  match ks with
  | [] => k
  | _ :: _ => Str.join "/" ks +:+ String Str.slash k
  end.
Proof.
  induction ks as [| a ks IH]; [reflexivity |].
  destruct ks as [| b ks]; [reflexivity |].
  change (Str.join "/" ((a :: b :: ks) ++ [k]))
    with (a +:+ String Str.slash (Str.join "/" ((b :: ks) ++ [k]))).
  rewrite IH.
  change (Str.join "/" (a :: b :: ks))
    with (a +:+ String Str.slash (Str.join "/" (b :: ks))).
  rewrite <- append_assoc. reflexivity.
Qed.

Lemma before_last_slash_segment k :
  Str.has_char Str.slash k = false -> Dir.before_last_slash k = None.
Proof.
  induction k as [| c k IH]; [reflexivity |]. cbn [Str.has_char Dir.before_last_slash].
  intros H. apply orb_false_iff in H as [Hc Hk]. rewrite (IH Hk), Hc. reflexivity.
Qed.

Lemma before_last_slash_app a k :
  Str.has_char Str.slash k = false ->
  Dir.before_last_slash (a +:+ String Str.slash k) = Some a.
Proof.
  intros Hk. induction a as [| c a IH].
  - change (EmptyString +:+ String Str.slash k) with (String Str.slash k).
    cbn [Dir.before_last_slash]. rewrite (before_last_slash_segment k Hk).
    reflexivity.
  - change (String c a +:+ String Str.slash k) with (String c (a +:+ String Str.slash k)).
    cbn [Dir.before_last_slash]. rewrite IH. reflexivity.
Qed.

Lemma without_trailing_slashes_segment k :
  Str.has_char Str.slash k = false -> Dir.without_trailing_slashes k = k.
Proof.
  induction k as [| c k IH]; [reflexivity |].
  cbn [Str.has_char Dir.without_trailing_slashes].
  intros H. apply orb_false_iff in H as [Hc Hk]. rewrite (IH Hk), Hc. reflexivity.
Qed.

Lemma without_trailing_slashes_app a k :
  segment k -> Dir.without_trailing_slashes (a +:+ k) = a +:+ k.
Proof.
  intros [Hn Hk]. induction a as [| c a IH].
  - apply without_trailing_slashes_segment. exact Hk.
  - change (String c a +:+ k) with (String c (a +:+ k)).
    cbn [Dir.without_trailing_slashes]. rewrite IH.
    assert (He : Str.is_empty (a +:+ k) = false).
    { destruct a; [| reflexivity]. destruct k; [discriminate | reflexivity]. }
    rewrite He, andb_false_r. reflexivity.
Qed.

(** The directory of [/k1/.../kn/k] is [/k1/.../kn]. *)
Lemma dirname_render ks k :
  Forall plain ks -> segment k -> Dir.dirname (render (ks ++ [k])) = render ks.
Proof.
  intros Hks Hk. unfold render.
  change ("/" +:+ Str.join "/" (ks ++ [k])) with (String "/" (Str.join "/" (ks ++ [k]))).
  cbn [Dir.dirname]. rewrite join_snoc. destruct ks as [| a ks].
  - destruct Hk as [Hn Hs]. rewrite (without_trailing_slashes_segment k Hs).
    rewrite (before_last_slash_segment k Hs). reflexivity.
  - change (Str.join "/" (a :: ks) +:+ String Str.slash k)
      with (Str.join "/" (a :: ks) +:+ (String Str.slash EmptyString +:+ k)).
    rewrite append_assoc, (without_trailing_slashes_app _ k Hk), <- append_assoc.
    change (String Str.slash EmptyString +:+ k) with (String Str.slash k).
    rewrite (before_last_slash_app _ k (proj2 Hk)).
    inversion Hks as [| ? ? [[Ha _] _] _]; subst.
    rewrite (join_not_empty a ks Ha). reflexivity.
Qed.

(** [path.resolve(dir, t)] for a directory [/k1/.../kn] and a text [t]
    that is not empty. *)
Lemma resolve_from_dir cwd ks t :
  Forall plain ks -> Str.is_empty t = false ->
  Path.resolve cwd [render ks; t]
  = render (Path.normalizeArray
              ((if Path.isAbsolute t then [] else ks) ++ Path.parts t) false).
Proof.
  intros Hks Ht. unfold Path.resolve. cbn [rev app Path.resolve_loop]. rewrite Ht.
  change (t +:+ "/" +:+ EmptyString) with (t +:+ String Str.slash EmptyString).
  destruct (Path.isAbsolute t).
  - rewrite parts_app. change (Path.parts EmptyString) with (@nil string).
    rewrite app_nil_r. reflexivity.
  - change (Str.is_empty (render ks)) with false.
    change (Path.isAbsolute (render ks)) with true. cbv iota.
    change (render ks +:+ "/" +:+ t +:+ String Str.slash EmptyString)
      with (render ks +:+ String Str.slash (t +:+ String Str.slash EmptyString)).
    rewrite !parts_app, (parts_render ks (plain_segment ks Hks)).
    change (Path.parts EmptyString) with (@nil string).
    rewrite app_nil_r. reflexivity.
Qed.

(** X7: the lines of the ignore file are read relative to the directory
    that holds the file, not to the working directory: for the file
    [/k1/.../kn/k] each line that is not blank gives, trimmed, the path
    [/k1/.../kn/line] normalized, or the line itself normalized when it
    is absolute; the order of the lines is kept. *)
Theorem loadIgnores_relative_to_file (fuel : nat) (h : Host)
    (ks : list string) (k text : string) :
  Forall plain ks -> segment k ->
  findFile fuel h ".jshintignore" None = Ret (Some (render (ks ++ [k]))) ->
  cat h (render (ks ++ [k])) = CatText text ->
  loadIgnores fuel h =
  Ret (Some
         (List.map
            (fun line =>
               render (Path.normalizeArray
                         ((if Path.isAbsolute (trim h line) then [] else ks)
                          ++ Path.parts (trim h line)) false))
            (List.filter (fun line => negb (Str.is_empty (trim h line)))
                         (Str.split "010" text)))).
Proof.
  intros Hks Hk Hfind Hcat.
  rewrite (loadIgnores_found fuel h _ text Hfind Hcat). do 2 f_equal.
  apply List.map_ext_in. intros line Hline.
  apply List.filter_In in Hline as [_ Hne]. apply negb_true_iff in Hne.
  rewrite (dirname_render ks k Hks Hk). apply resolve_from_dir; assumption.
Qed.

Lemma loadIgnores_relative_to_file_witness :
  loadIgnores 2 Demo2.host = Ret (Some ["/w/vendor"; "/w/src/gen.js"; "/opt/x"]).
Proof.
  rewrite (loadIgnores_relative_to_file 2 Demo2.host ["w"] ".jshintignore"
             (String.concat (String "010" EmptyString)
                ["vendor"; "  "; " src/gen.js "; "/opt/x"; EmptyString])).
  - vm_compute. reflexivity.
  - repeat constructor.
  - split; reflexivity.
  - reflexivity.
  - reflexivity.
Defined.

Lemma loadIgnores_patterns_resolved_witness :
  Forall resolved ["/w/vendor"; "/w/src/gen.js"; "/opt/x"].
Proof.
  apply (loadIgnores_patterns_resolved 2 Demo2.host); reflexivity.
Defined.

Lemma isIgnored_after_loadIgnores_witness :
  isIgnored Demo2.host "vendor" ["/w/vendor"; "/w/src/gen.js"; "/opt/x"] = Ret true.
Proof.
  rewrite (isIgnored_after_loadIgnores 2 Demo2.host _ "vendor").
  - vm_compute. reflexivity.
  - reflexivity.
  - reflexivity.
  - intros [H | [H | [H | []]]]; discriminate H.
Defined.

(** ** collect *)

Lemma forEach_ext {A S} (f g : S -> A -> outcome S) (l : list A) :
  (forall s x, f s x = g s x) -> forall s, forEach f l s = forEach g l s.
Proof.
  intros Hfg. induction l as [| x l IH]; intros s; [reflexivity |].
  cbn [forEach]. rewrite Hfg. destruct (g s x); simpl; [apply IH | | |]; reflexivity.
Qed.

(** X8: an empty ignore list is no ignore list: [collect] does the same
    with [[]] as with [undefined]. *)
Theorem collect_empty_ignores (fuel : nat) (env : Env) (fp : string) (w : walk)
    (ext : string -> bool) :
  collect fuel env fp w (Some []) ext = collect fuel env fp w None ext.
Proof.
  revert fp w. induction fuel as [| n IH]; intros fp w; [reflexivity |].
  cbn [collect isIgnored some obind].
  destruct (isdir env fp); [| reflexivity].
  apply forEach_ext. intros s x. apply IH.
Qed.

Lemma forEach_invariant {A S} (R : S -> S -> Prop) (f : S -> A -> outcome S)
    (l : list A) :
  (forall s, R s s) ->
  (forall a b c, R a b -> R b c -> R a c) ->
  (forall s x s', f s x = Ret s' -> R s s') ->
  forall s s', forEach f l s = Ret s' -> R s s'.
Proof.
  intros Hrefl Htrans Hstep. induction l as [| x l IH]; intros s s'.
  - intros [= <-]. apply Hrefl.
  - cbn [forEach]. destruct (f s x) as [s1 | | |] eqn:Hf; simpl; try discriminate.
    intros Hrest. eapply Htrans; [eapply Hstep; exact Hf | apply IH; exact Hrest].
Qed.

Lemma grows_refl env ig ext w : grows env ig ext w w.
Proof.
  split; [exists []; split; [symmetry; apply app_nil_r | constructor] |].
  exists []. symmetry. apply app_nil_r.
Qed.

Lemma grows_trans env ig ext a b c :
  grows env ig ext a b -> grows env ig ext b c -> grows env ig ext a c.
Proof.
  intros [(x & Hx & Qx) (u & Hu)] [(y & Hy & Qy) (v & Hv)]. split.
  - exists (x ++ y). split; [rewrite Hy, Hx, app_assoc; reflexivity |].
    apply Forall_app. split; assumption.
  - exists (u ++ v). rewrite Hv, Hu, app_assoc. reflexivity.
Qed.

(** X9: [collect] only appends: what was in the list stays, in place,
    and every path it adds matches the extension pattern, is not a
    directory and is not ignored. *)
Theorem collect_appends_collectable (fuel : nat) (env : Env) (fp : string)
    (w w' : walk) (ignores : option (list string)) (ext : string -> bool) :
  collect fuel env fp w ignores ext = Ret w' -> grows env ignores ext w w'.
Proof.
  revert fp w w'. induction fuel as [| n IH]; intros fp w w'; [discriminate |].
  cbn [collect].
  set (w1 := {| files := files w; visited := visited w ++ [fp] |}).
  assert (H1 : grows env ignores ext w w1).
  { split; [exists []; split; [symmetry; apply app_nil_r | constructor] |].
    exists [fp]. reflexivity. }
  destruct (match ignores with
            | Some patterns => isIgnored env fp patterns
            | None => Ret false
            end) as [[|] | | |] eqn:Hign; simpl; try discriminate.
  - intros [= <-]. exact H1.
  - destruct (isdir env fp) eqn:Hdir.
    + intros Hall. apply (grows_trans _ _ _ w w1 w' H1).
      revert Hall. apply forEach_invariant.
      * apply grows_refl.
      * apply grows_trans.
      * intros s x s'. apply IH.
    + destruct (ext fp) eqn:Hext; intros [= <-]; [| exact H1]. split.
      * exists [fp]. split; [reflexivity |]. constructor; [| constructor].
        split; [exact Hext |]. split; [exact Hdir |].
        unfold not_ignored. destruct ignores; [exact Hign | exact I].
      * exists [fp]. reflexivity.
Qed.

Lemma collect_appends_collectable_witness :
  grows Demo.tree (Some ["src/lib"]) (fun _ => true)
        {| files := ["x.js"]; visited := [] |}
        {| files := ["x.js"; "src/ok.js"; "src/locked.js"];
           visited := ["src"; "src/lib"; "src/ok.js"; "src/locked.js"] |}.
Proof.
  apply (collect_appends_collectable 2 Demo.tree "src").
  vm_compute. reflexivity.
Defined.

Lemma collect_leaf n env fp w ignores ext :
  not_ignored env ignores fp -> isdir env fp = false ->
  collect (S n) env fp w ignores ext =
  Ret {| files := files w ++ (if ext fp then [fp] else []);
         visited := visited w ++ [fp] |}.
Proof.
  intros Hign Hdir. cbn [collect].
  assert (Hi : match ignores with
               | Some patterns => isIgnored env fp patterns
               | None => Ret false
               end = Ret false) by (destruct ignores; [exact Hign | reflexivity]).
  rewrite Hi. simpl. rewrite Hdir.
  destruct (ext fp); [reflexivity |]. rewrite app_nil_r. reflexivity.
Qed.

Lemma collect_leaves n env fp ignores ext items : forall w,
  (forall item, In item items ->
     isdir env (child fp item) = false /\ not_ignored env ignores (child fp item)) ->
  forEach (fun w item => collect (S n) env (Path.join [fp; item]) w ignores ext)
          items w =
  Ret {| files := files w ++ List.filter ext (List.map (child fp) items);
         visited := visited w ++ List.map (child fp) items |}.
Proof.
  induction items as [| item items IH]; intros w Hall.
  - simpl. rewrite !app_nil_r. destruct w; reflexivity.
  - cbn [forEach]. destruct (Hall item (or_introl eq_refl)) as [Hdir Hign].
    fold (child fp item). rewrite (collect_leaf n env _ w ignores ext Hign Hdir).
    simpl. rewrite IH by (intros i Hi; apply Hall; right; exact Hi).
    cbn [files visited List.map List.filter].
    destruct (ext (child fp item)); rewrite <- !app_assoc; reflexivity.
Qed.

(** X10: for a directory that holds no directories, [collect] adds its
    entries that match the extension pattern, in the order of the
    listing, each named by [path.join] of the directory and the entry. *)
Theorem collect_flat_directory (n : nat) (env : Env) (fp : string) (w : walk)
    (ignores : option (list string)) (ext : string -> bool) :
  isdir env fp = true -> not_ignored env ignores fp ->
  (forall item, In item (ls env fp) ->
     isdir env (child fp item) = false /\ not_ignored env ignores (child fp item)) ->
  collect (S (S n)) env fp w ignores ext =
  Ret {| files := files w ++ List.filter ext (List.map (child fp) (ls env fp));
         visited := visited w ++ fp :: List.map (child fp) (ls env fp) |}.
Proof.
  intros Hdir Hign Hall. cbn [collect].
  assert (Hi : match ignores with
               | Some patterns => isIgnored env fp patterns
               | None => Ret false
               end = Ret false) by (destruct ignores; [exact Hign | reflexivity]).
  rewrite Hi. simpl. rewrite Hdir.
  rewrite (collect_leaves n env fp ignores ext (ls env fp) _ Hall).
  cbn [files visited]. rewrite <- app_assoc. reflexivity.
Qed.

Lemma collect_flat_directory_witness :
  collect 2 Demo.mixed "d" {| files := []; visited := [] |} None
          (fun p => Str.is_substring ".js" p || Str.is_substring ".ts" p)
  = Ret {| files := ["d/a.js"; "d/b.ts"];
           visited := ["d"; "d/a.js"; "d/b.ts"; "d/c.txt"] |}.
Proof.
  apply (collect_flat_directory 0 Demo.mixed "d" {| files := []; visited := [] |} None).
  - reflexivity.
  - exact I.
  - intros item [<- | [<- | [<- | []]]]; split; solve [reflexivity | exact I].
Defined.

(** ** lint and run: what they leave alone *)

Lemma preserves_ret {A} (a : A) : preserves (Mon.ret a).
Proof. intros w l _. reflexivity. Qed.

Lemma preserves_lift {A} (o : outcome A) : preserves (Mon.lift o).
Proof. intros w l _. reflexivity. Qed.

Lemma preserves_emit e : preserves (Mon.emit e).
Proof. intros w l _. reflexivity. Qed.

Lemma preserves_bind {A B} (m : M A) (k : A -> M B) :
  preserves m -> (forall a, preserves (k a)) -> preserves (Mon.bind m k).
Proof.
  intros Hm Hk w l Hl. unfold Mon.bind. specialize (Hm w l Hl).
  destruct (m w) as [[a | e | c |] w1]; simpl in Hm |- *; try exact Hm.
  rewrite (Hk a w1 l); [exact Hm | rewrite Hm; exact Hl].
Qed.

Lemma preserves_forEach {A S} (f : S -> A -> M S) (l : list A) :
  (forall s x, preserves (f s x)) -> forall s, preserves (Mon.forEach f l s).
Proof.
  intros Hf. induction l as [| x l IH]; intros s; cbn [Mon.forEach].
  - apply preserves_ret.
  - apply preserves_bind; [apply Hf | exact IH].
Qed.

Lemma lint_preserves env f results cfg data : preserves (lint env f results cfg data).
Proof.
  intros w l Hl.
  destruct (config_obj w cfg) as [o |] eqn:Hcfg.
  - destruct (reads_or_fails env f) as [[buf Hcat] | (out & msgs & Hfail)].
    + destruct (lint_readable env f results cfg data w o buf Hcfg Hcat)
        as (w' & -> & _ & Hframe). apply Hframe, Hl.
    + destruct (lint_unreadable env f results cfg data w o out msgs Hcfg Hfail)
        as (w' & -> & _ & Hframe). apply Hframe, Hl.
  - destruct cfg as [c |]; [| discriminate]. simpl in Hcfg.
    run_lint. rewrite Hcfg. reflexivity.
Qed.

(** X11: [lint] and [run] never change an object that existed before
    the call, whatever the options, the files and the outcome: the
    deletion of [globals] and all the engine does to its options happen
    in the copies. *)
Theorem lint_and_run_preserve_heap :
  (forall env f results cfg data, preserves (lint env f results cfg data))
  /\ (forall fuel env opts, preserves (run fuel env opts)).
Proof.
  split; [exact lint_preserves |].
  intros fuel env opts. unfold run.
  apply preserves_bind.
  - destruct (RegExp env _); [apply preserves_ret | apply preserves_lift].
  - intros re. apply preserves_bind; [apply preserves_lift |].
    intros wk. apply preserves_bind.
    + apply preserves_forEach. intros s x. apply lint_preserves.
    + intros rd. apply preserves_bind; [apply preserves_emit |].
      intros _. apply preserves_ret.
Qed.

Lemma lint_and_run_preserve_heap_witness :
  heap (snd (run 3 Demo.tree (Demo.opts None) (Demo.world_of Demo.falsy_globals))) !! 0
  = Some Demo.falsy_globals.
Proof.
  destruct lint_and_run_preserve_heap as [_ Hrun].
  rewrite (Hrun 3 Demo.tree (Demo.opts None) (Demo.world_of Demo.falsy_globals) 0).
  - reflexivity.
  - exists Demo.falsy_globals. reflexivity.
Defined.

(** ** lint: the byte order mark *)

Lemma substring_all s : String.substring 0 (String.length s) s = s.
Proof. induction s as [| c s IH]; simpl; [reflexivity | rewrite IH; reflexivity]. Qed.

Lemma strip_bom_marked s : strip_bom (BOM +:+ s) = s.
Proof.
  unfold strip_bom, BOM.
  change (String "239" (String "187" (String "191" EmptyString)) +:+ s)
    with (String "239" (String "187" (String "191" s))).
  cbn [Str.is_prefix]. rewrite !Ascii.eqb_refl. cbn [andb String.length].
  replace (S (S (S (String.length s))) - 3) with (String.length s) by lia.
  cbn [String.substring]. apply substring_all.
Qed.

Lemma strip_bom_plain s : Str.is_prefix BOM s = false -> strip_bom s = s.
Proof. unfold strip_bom. intros ->. reflexivity. Qed.

(** X12: the engine gets the text of the file without its leading byte
    order mark: one mark is taken off, a text without one is passed as
    it is. *)
Theorem lint_strips_one_bom (env : Env) (f : string) (results : list finding)
    (cfg : option nat) (data : list obj) (w : world) (o : obj) (s : string) :
  config_obj w cfg = Some o ->
  (cat env f = CatText (BOM +:+ s) \/
   (cat env f = CatText s /\ Str.is_prefix BOM s = false)) ->
  log (snd (lint env f results cfg data w))
  = log w ++ [EvEngine s (fst (engine_view o)) (snd (engine_view o))].
Proof.
  intros Hcfg [Hcat | [Hcat Hplain]];
    destruct (lint_readable env f results cfg data w o _ Hcfg Hcat)
      as (w' & -> & Hlog & _); cbn [snd]; rewrite Hlog.
  - rewrite strip_bom_marked. reflexivity.
  - rewrite (strip_bom_plain s Hplain). reflexivity.
Qed.

Lemma lint_strips_one_bom_witness :
  log (snd (lint Demo2.marked "m.js" [] None [] (Demo.world_of [])))
  = [EvEngine "var m;" [] None]
  /\ log (snd (lint Demo2.marked "mm.js" [] None [] (Demo.world_of [])))
     = [EvEngine (BOM +:+ "var m;") [] None]
  /\ log (snd (lint Demo.tree "src/ok.js" [] None [] (Demo.world_of [])))
     = [EvEngine "var x = 1;" [] None].
Proof.
  split; [| split].
  - apply (lint_strips_one_bom Demo2.marked "m.js" [] None [] (Demo.world_of []) []
             "var m;"); [reflexivity |].
    left. reflexivity.
  - apply (lint_strips_one_bom Demo2.marked "mm.js" [] None [] (Demo.world_of []) []
             (BOM +:+ "var m;")); [reflexivity |].
    left. reflexivity.
  - apply (lint_strips_one_bom Demo.tree "src/ok.js" [] None [] (Demo.world_of []) []
             "var x = 1;"); [reflexivity |].
    right. split; reflexivity.
Defined.

(** ** lint: what it adds to the results and to the data *)

Lemma get_set k v (o : obj) : Js.get k (Js.set k v o) = Some v.
Proof.
  induction o as [| [k' v'] o IH]; cbn [Js.set Js.get].
  - rewrite String.eqb_refl. reflexivity.
  - destruct (String.eqb k' k) eqn:E; cbn [Js.get]; rewrite E; [reflexivity | exact IH].
Qed.

Lemma get_set_other k k' v (o : obj) :
  k' <> k -> Js.get k' (Js.set k v o) = Js.get k' o.
Proof.
  intros Hk. assert (Hkk : String.eqb k k' = false) by (apply String.eqb_neq; congruence).
  induction o as [| [k0 v0] o IH]; cbn [Js.set Js.get].
  - rewrite Hkk. reflexivity.
  - destruct (String.eqb k0 k) eqn:E; cbn [Js.get].
    + apply String.eqb_eq in E. subst k0. rewrite Hkk. reflexivity.
    + rewrite IH. reflexivity.
Qed.

Lemma findings_of_file f errs : Forall (fun x => file x = f) (findings_of f errs).
Proof.
  unfold findings_of. apply List.Forall_forall. intros x Hx.
  apply in_map_iff in Hx as (e & <- & _). reflexivity.
Qed.

Lemma findings_of_errors f errs :
  List.map error (findings_of f errs) = List.filter Js.truthy errs.
Proof.
  unfold findings_of. rewrite List.map_map. cbn [error]. apply List.map_id.
Qed.

(** X13: on a file that is read, [lint] keeps the results and the data
    it was given and appends to them.  To the results: nothing when the
    engine passed; otherwise one finding for each entry of the engine's
    errors that is not [null], in their order, each with the file name.
    To the data, pass or fail: the engine's data, if there is any, with
    the file name stored under [file] and its other properties as the
    engine gave them. *)
Theorem lint_appends (env : Env) (f : string) (results : list finding)
    (cfg : option nat) (data : list obj) (w : world) (o : obj) (buf : string) :
  config_obj w cfg = Some o -> cat env f = CatText buf ->
  exists found extra,
    fst (lint env f results cfg data w) = Ret (results ++ found, data ++ extra)
    /\ Forall (fun x => file x = f) found
    /\ List.map error found
       = (if passed (analyse env o buf) then []
          else List.filter Js.truthy (errors (analyse env o buf)))
    /\ extra = match lintdata (analyse env o buf) with
               | Some d => [Js.set "file" (JStr f) d]
               | None => []
               end
    /\ Forall (fun d' => Js.get "file" d' = Some (JStr f)) extra
    /\ (forall d k,
          lintdata (analyse env o buf) = Some d -> k <> "file" ->
          Forall (fun d' => Js.get k d' = Js.get k d) extra).
Proof.
  intros Hcfg Hcat.
  destruct (lint_readable env f results cfg data w o buf Hcfg Hcat) as (w' & -> & _).
  exists (file_findings env o f buf), (file_data env o f buf).
  split; [reflexivity |]. unfold file_findings, file_data.
  split; [| split; [| split; [reflexivity | split]]].
  - destruct (passed (analyse env o buf)); [constructor | apply findings_of_file].
  - destruct (passed (analyse env o buf)); [reflexivity | apply findings_of_errors].
  - destruct (lintdata (analyse env o buf)) as [d |]; repeat constructor.
    apply get_set.
  - intros d k -> Hk. repeat constructor. apply get_set_other. exact Hk.
Qed.

Lemma lint_appends_witness :
  exists found extra,
    fst (lint Demo.tree "src/lib/a.js" [] None [] (Demo.world_of []))
      = Ret ([] ++ found, [] ++ extra)
    /\ Forall (fun x => file x = "src/lib/a.js") found
    /\ List.map error found
       = [JObj [("code", JStr "W061"); ("reason", JStr "eval can be harmful.")]]
    /\ extra = [[("functions", JArr []); ("file", JStr "src/lib/a.js")]].
Proof.
  destruct (lint_appends Demo.tree "src/lib/a.js" [] None [] (Demo.world_of []) []
              "eval(x);" eq_refl eq_refl)
    as (found & extra & H1 & H2 & H3 & H4 & _).
  exists found, extra. split; [exact H1 |]. split; [exact H2 |].
  split; [exact H3 | exact H4].
Defined.

(** ** lint without a configuration *)

(** X14: a missing configuration is the empty configuration: [lint]
    returns the same, and writes the same to the log, for [undefined] as
    for an object without properties. *)
Theorem lint_default_config (env : Env) (f : string) (results : list finding)
    (c : nat) (data : list obj) (w : world) :
  heap w !! c = Some [] ->
  fst (lint env f results None data w) = fst (lint env f results (Some c) data w)
  /\ log (snd (lint env f results None data w))
     = log (snd (lint env f results (Some c) data w)).
Proof.
  intros Hc.
  assert (H1 : config_obj w None = Some []) by reflexivity.
  assert (H2 : config_obj w (Some c) = Some []) by exact Hc.
  destruct (reads_or_fails env f) as [[buf Hcat] | (out & msgs & Hfail)].
  - destruct (lint_readable env f results None data w [] buf H1 Hcat)
      as (w1 & -> & Hlog1 & _).
    destruct (lint_readable env f results (Some c) data w [] buf H2 Hcat)
      as (w2 & -> & Hlog2 & _).
    simpl. rewrite Hlog1, Hlog2. split; reflexivity.
  - destruct (lint_unreadable env f results None data w [] out msgs H1 Hfail)
      as (w1 & -> & Hlog1 & _).
    destruct (lint_unreadable env f results (Some c) data w [] out msgs H2 Hfail)
      as (w2 & -> & Hlog2 & _).
    simpl. rewrite Hlog1, Hlog2. split; reflexivity.
Qed.

Lemma lint_default_config_witness :
  fst (lint Demo.tree "src/ok.js" [] None [] (Demo.world_of []))
  = fst (lint Demo.tree "src/ok.js" [] (Some 0) [] (Demo.world_of [])).
Proof.
  apply (lint_default_config Demo.tree "src/ok.js" [] 0 [] (Demo.world_of [])).
  reflexivity.
Defined.

(** ** interpret: the choice of the reporter *)

(** X15: the reporter options are ranked: the JSLint reporter, asked for
    by name or by its deprecated flag, goes before the CheckStyle
    reporter, that before [--show-non-errors], and that before a
    reporter of one's own, whose path is made absolute against the
    working directory; with none of them there is no reporter option. *)
Theorem reporter_option_precedence (h : Host) (o : cli_options) :
  (wants_jslint o = true ->
   reporter_option h o = Some "../reporters/jslint_xml.js")
  /\ (wants_jslint o = false -> wants_checkstyle o = true ->
      reporter_option h o = Some "../reporters/checkstyle.js")
  /\ (wants_jslint o = false -> wants_checkstyle o = false ->
      o_show_non_errors o = true ->
      reporter_option h o = Some "../reporters/non_error.js")
  /\ (wants_jslint o = false -> wants_checkstyle o = false ->
      o_show_non_errors o = false ->
      forall r, o_reporter o = Some r ->
        reporter_option h o = Some (Path.resolve (cwd h) [cwd h; r])
        /\ (Path.isAbsolute (cwd h) = true ->
            resolved (Path.resolve (cwd h) [cwd h; r])))
  /\ (wants_jslint o = false -> wants_checkstyle o = false ->
      o_show_non_errors o = false -> o_reporter o = None ->
      reporter_option h o = None).
Proof.
  unfold wants_jslint, wants_checkstyle, reporter_option.
  repeat split.
  - intros ->. reflexivity.
  - intros -> ->. reflexivity.
  - intros -> -> ->. reflexivity.
  - rewrite H, H0, H1, H2. reflexivity.
  - intros Hcwd. apply resolve_resolved. exact Hcwd.
  - intros -> -> -> ->. reflexivity.
Qed.

Lemma reporter_option_precedence_witness :
  reporter_option Demo2.host (Demo2.with_reporter "rep.js" true)
    = Some "../reporters/non_error.js"
  /\ reporter_option Demo2.host (Demo2.with_reporter "rep.js" false)
    = Some "/w/rep.js".
Proof.
  destruct (reporter_option_precedence Demo2.host (Demo2.with_reporter "rep.js" true))
    as (_ & _ & Hshow & _).
  destruct (reporter_option_precedence Demo2.host (Demo2.with_reporter "rep.js" false))
    as (_ & _ & _ & Hown & _).
  split.
  - apply Hshow; reflexivity.
  - apply (Hown eq_refl eq_refl eq_refl "rep.js" eq_refl).
Defined.

(** ** interpret: loading the reporter *)

Lemma setup_after_config fuel (h : Host) cli_args o w fp config :
  config_path fuel h o = Ret fp -> loadConfig h fp = Ret config ->
  interpret_setup fuel h cli_args o w =
  Mon.bind (selected_reporter h o)
    (fun reporter =>
       Mon.bind (Mon.lift (loadIgnores fuel h))
         (fun ignores =>
            Mon.ret {| rq_args := cli_args; rq_config := config;
                       rq_reporter := reporter; rq_ignores := ignores;
                       rq_extensions := o_extra_ext o |})) w.
Proof.
  intros Hpath Hload. unfold interpret_setup.
  unfold Mon.bind at 1. unfold Mon.lift at 1. rewrite Hpath.
  unfold Mon.bind at 1. unfold Mon.lift at 1. rewrite Hload. reflexivity.
Qed.

(** X16: once the configuration is loaded, a reporter module that cannot
    be loaded (or whose [reporter] is [null]) ends [interpret] with the
    message [Can't load reporter file: <path>] and status 1, before the
    ignore file is looked for; a module that loads but has no [reporter]
    is not an error: the default reporter is used. *)
Theorem interpret_reporter_loading (fuel : nat) (h : Host)
    (cli_args : list string) (o : cli_options) (w : world)
    (fp : option string) (config : json) (p : string) :
  config_path fuel h o = Ret fp -> loadConfig h fp = Ret config ->
  reporter_option h o = Some p -> p <> EmptyString ->
  (loadReporter h p = RNull ->
   interpret_setup fuel h cli_args o w =
   (Exit 1%Z, {| heap := heap w;
                 log := log w ++ [EvCliError ("Can't load reporter file: " +:+ p)] |}))
  /\ (forall ignores,
        loadReporter h p = RUndefined ->
        loadIgnores fuel h = Ret ignores ->
        interpret_setup fuel h cli_args o w =
        (Ret {| rq_args := cli_args; rq_config := config; rq_reporter := None;
                rq_ignores := ignores; rq_extensions := o_extra_ext o |}, w))
  /\ (forall ignores r,
        loadReporter h p = RFunction r ->
        loadIgnores fuel h = Ret ignores ->
        interpret_setup fuel h cli_args o w =
        (Ret {| rq_args := cli_args; rq_config := config; rq_reporter := Some r;
                rq_ignores := ignores; rq_extensions := o_extra_ext o |}, w)).
Proof.
  intros Hpath Hload Hopt Hp.
  assert (Hne : Str.is_empty p = false) by (destruct p; [congruence | reflexivity]).
  rewrite (setup_after_config fuel h cli_args o w fp config Hpath Hload).
  unfold selected_reporter. rewrite Hopt, Hne.
  split; [| split].
  - intros ->. reflexivity.
  - intros ignores -> Hign. unfold Mon.bind, Mon.ret, Mon.lift. rewrite Hign.
    reflexivity.
  - intros ignores r -> Hign. unfold Mon.bind, Mon.ret, Mon.lift. rewrite Hign.
    reflexivity.
Qed.

Lemma interpret_reporter_loading_witness :
  interpret_setup 2 Demo2.host ["src"] (Demo2.with_reporter "nope.js" false)
                  {| heap := ∅; log := [] |}
  = (Exit 1%Z, {| heap := ∅;
                  log := [EvCliError "Can't load reporter file: /w/nope.js"] |}).
Proof.
  destruct (interpret_reporter_loading 2 Demo2.host ["src"]
              (Demo2.with_reporter "nope.js" false) {| heap := ∅; log := [] |}
              (Some "/w/.jshintrc") (JObj [("undef", JBool true)]) "/w/nope.js")
    as [Hnull _].
  - reflexivity.
  - vm_compute. reflexivity.
  - reflexivity.
  - discriminate.
  - apply Hnull. reflexivity.
Defined.

(** ** interpret: the configuration comes first *)

Lemma loadConfig_missing (env : Env) fp :
  exists_ env fp = false -> loadConfig env (Some fp) = Ret (JObj []).
Proof. intros Hex. unfold loadConfig. rewrite Hex, andb_false_r. reflexivity. Qed.

(** X17: a configuration path given on the command line is used as it
    is, without any search; when it names no file the configuration is
    empty, whatever [.jshintrc] files there are.  And an error of
    [loadConfig] ends [interpret] before the reporter is looked at:
    nothing is written to the log. *)
Theorem interpret_config_first (fuel : nat) (h : Host)
    (cli_args : list string) (o : cli_options) (w : world) :
  (forall p, o_config o = Some p -> p <> EmptyString ->
     config_path fuel h o = Ret (Some p)
     /\ (exists_ h p = false ->
         forall rq w', interpret_setup fuel h cli_args o w = (Ret rq, w') ->
                       rq_config rq = JObj []))
  /\ (forall fp e,
        config_path fuel h o = Ret fp -> loadConfig h fp = Throw e ->
        interpret_setup fuel h cli_args o w = (Throw e, w)).
Proof.
  split.
  - intros p Hp Hne.
    assert (Hpath : config_path fuel h o = Ret (Some p)).
    { unfold config_path. rewrite Hp. destruct p; [congruence | reflexivity]. }
    split; [exact Hpath |]. intros Hex rq w'.
    rewrite (setup_after_config fuel h cli_args o w (Some p) (JObj []) Hpath
               (loadConfig_missing h p Hex)).
    unfold Mon.bind, Mon.ret, Mon.lift.
    destruct (selected_reporter h o w) as [[r | | |] w1]; try discriminate.
    destruct (loadIgnores fuel h); try discriminate.
    intros [= <- _]. reflexivity.
  - intros fp e Hpath Hload. unfold interpret_setup.
    unfold Mon.bind at 1. unfold Mon.lift at 1. rewrite Hpath.
    unfold Mon.bind at 1. unfold Mon.lift at 1. rewrite Hload. reflexivity.
Qed.

Lemma interpret_config_first_witness :
  (forall rq w',
     interpret_setup 2 Demo2.host ["src"] (Demo2.with_config "missing.json")
       {| heap := ∅; log := [] |} = (Ret rq, w') ->
     rq_config rq = JObj [])
  /\ option_map rq_config
       (match fst (interpret_setup 2 Demo2.host ["src"]
                     (Demo2.with_config "missing.json")
                     {| heap := ∅; log := [] |}) with
        | Ret rq => Some rq
        | _ => None
        end) = Some (JObj [])
  /\ option_map rq_config
       (match fst (interpret_setup 2 Demo2.host ["src"] Demo2.plain_options
                     {| heap := ∅; log := [] |}) with
        | Ret rq => Some rq
        | _ => None
        end) = Some (JObj [("undef", JBool true)]).
Proof.
  split; [| split; vm_compute; reflexivity].
  destruct (interpret_config_first 2 Demo2.host ["src"]
              (Demo2.with_config "missing.json") {| heap := ∅; log := [] |})
    as [Hgiven _].
  destruct (Hgiven "missing.json" eq_refl) as [_ Hempty]; [discriminate |].
  apply Hempty. reflexivity.
Defined.

(** ** removeComments: a line comment is cut wherever it stands *)

(** A beginning without [/] goes through both passes untouched. *)
Lemma strip_block_no_slash a r :
  Str.has_char "/" a = false ->
  Comments.strip_block (String.length (a +:+ r)) (a +:+ r)
  = a +:+ Comments.strip_block (String.length r) r.
Proof.
  induction a as [| x a IH]; intros Ha; [reflexivity |].
  cbn [Str.has_char] in Ha. apply orb_false_iff in Ha as [Hx Ha].
  rewrite !cons_append. cbn [String.length]. rewrite strip_block_step, is_prefix_two.
  rewrite (Ascii.eqb_sym "/" x), Hx. cbn [andb]. rewrite (IH Ha). reflexivity.
Qed.

Lemma strip_line_no_slash a r :
  Str.has_char "/" a = false ->
  Comments.strip_line (String.length (a +:+ r)) (a +:+ r)
  = a +:+ Comments.strip_line (String.length r) r.
Proof.
  induction a as [| x a IH]; intros Ha; [reflexivity |].
  cbn [Str.has_char] in Ha. apply orb_false_iff in Ha as [Hx Ha].
  rewrite !cons_append. cbn [String.length]. rewrite strip_line_step, is_prefix_two.
  rewrite (Ascii.eqb_sym "/" x), Hx. cbn [andb]. rewrite (IH Ha). reflexivity.
Qed.

(** No block comment opens in a text without [*] that does not end in
    [/]. *)
Lemma strip_block_no_star p r :
  Str.has_char "*" p = false -> Str.ends_with_char "/" p = false ->
  Comments.strip_block (String.length (p +:+ r)) (p +:+ r)
  = p +:+ Comments.strip_block (String.length r) r.
Proof.
  induction p as [| x p IH]; intros Hstar Hend; [reflexivity |].
  cbn [Str.has_char] in Hstar. apply orb_false_iff in Hstar as [Hx Hstar].
  rewrite !cons_append. cbn [String.length]. rewrite strip_block_step, is_prefix_two.
  assert (Hno : Ascii.eqb "/" x && Str.starts_with_char "*" (p +:+ r) = false).
  { destruct p as [| y p].
    - cbn [Str.ends_with_char] in Hend. rewrite (Ascii.eqb_sym "/" x), Hend.
      reflexivity.
    - rewrite cons_append. cbn [Str.starts_with_char Str.has_char] in Hstar |- *.
      apply orb_false_iff in Hstar as [Hy _]. rewrite Hy. apply andb_false_r. }
  rewrite Hno. rewrite IH; [reflexivity | exact Hstar |].
  destruct p; [reflexivity | exact Hend].
Qed.

Lemma to_eol_one_line b r :
  one_line b -> Comments.to_eol (b +:+ String "010" r) = String "010" r.
Proof.
  intros [Hn Hr]. induction b as [| x b IH]; [reflexivity |].
  cbn [Str.has_char] in Hn, Hr.
  apply orb_false_iff in Hn as [Hxn Hn]. apply orb_false_iff in Hr as [Hxr Hr].
  rewrite cons_append. cbn [Comments.to_eol]. unfold Comments.line_break.
  rewrite Hxn, Hxr. cbn [orb]. apply IH; assumption.
Qed.

Lemma has_char_app c a b :
  Str.has_char c (a +:+ b) = Str.has_char c a || Str.has_char c b.
Proof.
  induction a as [| x a IH]; [reflexivity |].
  rewrite cons_append. cbn [Str.has_char]. rewrite IH, orb_assoc. reflexivity.
Qed.

Lemma ends_with_char_app c a x b :
  Str.ends_with_char c (a +:+ String x b) = Str.ends_with_char c (String x b).
Proof.
  induction a as [| y a IH]; [reflexivity |].
  rewrite cons_append. cbn [Str.ends_with_char]. rewrite IH.
  destruct a; reflexivity.
Qed.

Lemma strip_line_comment b r :
  one_line b ->
  Comments.strip_line (String.length ("//" +:+ b +:+ String "010" r))
                      ("//" +:+ b +:+ String "010" r)
  = String "010" (Comments.strip_line (String.length r) r).
Proof.
  intros Hb.
  change ("//" +:+ b +:+ String "010" r)
    with (String "/" (String "/" (b +:+ String "010" r))).
  cbn [String.length]. rewrite strip_line_step, is_prefix_two.
  cbn [Ascii.eqb Bool.eqb Str.starts_with_char andb Str.tail].
  rewrite (to_eol_one_line b r Hb).
  rewrite (strip_line_fuel _ (S (String.length r)) (String "010" r)).
  - reflexivity.
  - rewrite append_length. simpl. lia.
  - simpl. lia.
Qed.

Lemma strip_block_line_comment (a b c : string) :
  Str.has_char "/" a = false -> Str.has_char "*" b = false ->
  Comments.strip_block (String.length (a +:+ "//" +:+ b +:+ String "010" c))
                       (a +:+ "//" +:+ b +:+ String "010" c)
  = a +:+ "//" +:+ b +:+ String "010" (Comments.strip_block (String.length c) c).
Proof.
  intros Ha Hb. rewrite (strip_block_no_slash a _ Ha). f_equal.
  change ("//" +:+ b +:+ String "010" c)
    with ("//" +:+ (b +:+ (String "010" EmptyString +:+ c))).
  rewrite !append_assoc.
  rewrite (strip_block_no_star (("//" +:+ b) +:+ String "010" EmptyString) c).
  - rewrite <- !append_assoc. reflexivity.
  - rewrite !has_char_app, Hb. reflexivity.
  - rewrite ends_with_char_app. reflexivity.
Qed.

(** X18: a line comment is cut wherever it stands, inside a quoted text
    as well: behind a beginning [a] without [/], whatever else it holds,
    the text from [//] up to the line break is dropped and the rest is
    stripped as if it stood alone. *)
Theorem removeComments_cuts_line (a b c : string) :
  Str.has_char "/" a = false -> Str.has_char "*" b = false -> one_line b ->
  removeComments (StrVal (a +:+ "//" +:+ b +:+ String "010" c))
  = a +:+ String "010" (removeComments (StrVal c)).
Proof.
  intros Ha Hb Hline. rewrite !removeComments_eq.
  rewrite (strip_block_line_comment a b c Ha Hb).
  rewrite (strip_line_no_slash a _ Ha). f_equal.
  apply strip_line_comment. exact Hline.
Qed.

Lemma removeComments_cuts_line_witness :
  removeComments (StrVal (Str.unquote "{'u': 'http:" +:+ "//" +:+ Str.unquote "x.org'}"
                          +:+ String "010" EmptyString))
  = Str.unquote "{'u': 'http:" +:+ String "010" EmptyString.
Proof.
  apply (removeComments_cuts_line (Str.unquote "{'u': 'http:") (Str.unquote "x.org'}")
           EmptyString); [reflexivity | reflexivity | split; reflexivity].
Defined.

(** ** loadConfig: comments in the file *)

Lemma loadConfig_same_text (env1 env2 : Env) fp text1 text2 :
  (forall s, JSON_parse env1 s = JSON_parse env2 s) ->
  exists_ env1 fp = exists_ env2 fp ->
  cat env1 fp = CatText text1 -> cat env2 fp = CatText text2 ->
  removeComments (StrVal text1) = removeComments (StrVal text2) ->
  loadConfig env1 (Some fp) = loadConfig env2 (Some fp).
Proof.
  intros Hparse Hex H1 H2 Heq. unfold loadConfig, shjs_cat.
  rewrite Hex, H1, H2. cbn [obind]. rewrite Heq, Hparse. reflexivity.
Qed.

(** X19: a comment that stands by itself does not change what
    [loadConfig] returns.  A file that starts with a block comment,
    which ends at its first [*/], gives what the rest of the file gives.
    A file with a line comment that holds no [*], behind a beginning
    without [/], gives what the file without the comment gives.  (A
    line comment that holds [/*] is another matter: the block comments
    are dropped first, and that [/*] may open one.) *)
Theorem loadConfig_ignores_comments (env1 env2 : Env) (fp a b c : string) :
  (forall s, JSON_parse env1 s = JSON_parse env2 s) ->
  exists_ env1 fp = exists_ env2 fp ->
  (Str.is_substring "*/" b = false ->
   cat env1 fp = CatText ("/*" +:+ b +:+ "*/" +:+ c) -> cat env2 fp = CatText c ->
   loadConfig env1 (Some fp) = loadConfig env2 (Some fp))
  /\ (Str.has_char "/" a = false -> Str.has_char "*" b = false -> one_line b ->
      cat env1 fp = CatText (a +:+ "//" +:+ b +:+ String "010" c) ->
      cat env2 fp = CatText (a +:+ String "010" c) ->
      loadConfig env1 (Some fp) = loadConfig env2 (Some fp)).
Proof.
  intros Hparse Hex. split.
  - intros Hb H1 H2.
    apply (loadConfig_same_text env1 env2 fp _ _ Hparse Hex H1 H2).
    apply removeComments_block. exact Hb.
  - intros Ha Hb Hline H1 H2.
    apply (loadConfig_same_text env1 env2 fp _ _ Hparse Hex H1 H2).
    rewrite (removeComments_eq (a +:+ "//" +:+ b +:+ String "010" c)).
    rewrite (strip_block_line_comment a b c Ha Hb).
    rewrite (strip_line_no_slash a _ Ha), (strip_line_comment b _ Hline).
    rewrite (removeComments_eq (a +:+ String "010" c)).
    change (a +:+ String "010" c) with (a +:+ (String "010" EmptyString +:+ c)).
    rewrite append_assoc.
    assert (Hnl : Str.has_char "/" (a +:+ String "010" EmptyString) = false)
      by (rewrite has_char_app, Ha; reflexivity).
    rewrite (strip_block_no_slash _ c Hnl).
    rewrite (strip_line_no_slash _ _ Hnl).
    rewrite <- append_assoc. reflexivity.
Qed.

Lemma loadConfig_ignores_comments_witness :
  loadConfig Demo2.commented (Some "/w/c.json")
  = loadConfig Demo2.uncommented (Some "/w/c.json")
  /\ loadConfig Demo2.uncommented (Some "/w/c.json")
     = Ret (JObj [("undef", JBool true)])
  /\ loadConfig Demo2.line_commented (Some "/w/c.json")
     = loadConfig Demo2.line_uncommented (Some "/w/c.json")
  /\ loadConfig Demo2.line_uncommented (Some "/w/c.json")
     = Ret (JObj [("undef", JBool true)]).
Proof.
  split; [| split; [vm_compute; reflexivity | split; [| vm_compute; reflexivity]]].
  - destruct (loadConfig_ignores_comments Demo2.commented Demo2.uncommented
                "/w/c.json" EmptyString " all " (Str.unquote "{'undef': true}"))
      as [Hblock _].
    + reflexivity.
    + reflexivity.
    + apply Hblock; reflexivity.
  - destruct (loadConfig_ignores_comments Demo2.line_commented Demo2.line_uncommented
                "/w/c.json" (Str.unquote "{'undef': true ") " strict" "}")
      as [_ Hline].
    + reflexivity.
    + reflexivity.
    + apply Hline; [reflexivity | reflexivity | split; reflexivity | reflexivity
                    | reflexivity].
Defined.
